(** * SimpleSpoon backend: a shallow embedding of [server.js]

    The Express handlers of [src/server.js] are embedded as computations in a
    small state-and-exception monad over a [world] that holds the two store
    relations ([recipes], [favorites]), the upload directory, the log of calls
    made to the generative model, and the pending behaviour of the external
    collaborators (store faults, model completions).

    [server.js] holds two versions of the server one after the other.  Their
    handlers are the same except for POST /analyze-recipe-image, which takes
    an uploaded file in the first and an inline image in the second; both are
    embedded.

    Texts are byte strings (UTF-8); JSON values are the values produced by
    [JSON.parse].  The store client is embedded by what its calls mean:
    relations are lists of rows, a filter is a predicate on rows, and a
    constraint of the store that rejects a call shows as a fault of that
    call.

    Layout: [Text], [Json], [Env], [Store], [Effects], [Handlers], [Server]
    embed the code; [Observe] and [Scenario] name what the statements talk
    about; the statements follow. *)

From Stdlib Require Import String Ascii List Bool Arith Lia.
From stdpp Require Import base option list strings pretty gmap fin_maps.

Open Scope string_scope.
Open Scope nat_scope.

(* ===================================================================== *)
(** ** Text: the string built-ins the handlers call                       *)
(* ===================================================================== *)

Module Text.

Definition code (c : ascii) : nat := nat_of_ascii c.

Definition in_range (lo hi : nat) (c : ascii) : bool :=
  (lo <=? code c) && (code c <=? hi).

Definition is_digit (c : ascii) : bool := in_range 48 57 c.
Definition is_upper (c : ascii) : bool := in_range 65 90 c.
Definition is_lower (c : ascii) : bool := in_range 97 122 c.

(** The double quote, and a text between double quotes. *)
Definition dquote : ascii := ascii_of_nat 34.

Definition quoted (s : string) : string :=
  String dquote (s ++ String dquote EmptyString).

(** [\w] of a JavaScript regular expression: [A-Za-z0-9_]. *)
Definition is_word (c : ascii) : bool :=
  is_digit c || is_upper c || is_lower c || (code c =? 95).

(** The lower case of an ASCII letter, and of a text made of ASCII
    characters. *)
Definition lower_char (c : ascii) : ascii :=
  if is_upper c then ascii_of_nat (code c + 32) else c.

Fixpoint lower_ascii (s : string) : string :=
  match s with
  | EmptyString => EmptyString
  | String c r => String (lower_char c) (lower_ascii r)
  end.


(** *** Code points

    A text is its UTF-8 bytes; a lone surrogate half is three bytes, like
    any other code point of its range.  A byte that belongs to no
    well-formed sequence is carried along as it is ([raw]). *)

Definition byte_of (c : ascii) : N := N_of_ascii c.

Definition is_cont (c : ascii) : bool :=
  ((128 <=? byte_of c) && (byte_of c <=? 191))%N.

Definition raw (c : ascii) : N := (1114112 + byte_of c)%N.

Fixpoint code_points (s : string) : list N :=
  match s with
  | EmptyString => []
  | String c1 r1 =>
      let b1 := byte_of c1 in
      if (b1 <? 128)%N then b1 :: code_points r1
      else
        match r1 with
        | String c2 r2 =>
            let p2 := ((b1 - 192) * 64 + (byte_of c2 - 128))%N in
            if ((192 <=? b1) && (b1 <? 224))%N && is_cont c2
               && (128 <=? p2)%N
            then p2 :: code_points r2
            else
              match r2 with
              | String c3 r3 =>
                  let p3 := ((b1 - 224) * 4096 + (byte_of c2 - 128) * 64
                             + (byte_of c3 - 128))%N in
                  if ((224 <=? b1) && (b1 <? 240))%N && is_cont c2
                     && is_cont c3 && (2048 <=? p3)%N
                  then p3 :: code_points r3
                  else
                    match r3 with
                    | String c4 r4 =>
                        let p4 := ((b1 - 240) * 262144
                                   + (byte_of c2 - 128) * 4096
                                   + (byte_of c3 - 128) * 64
                                   + (byte_of c4 - 128))%N in
                        if ((240 <=? b1) && (b1 <? 248))%N && is_cont c2
                           && is_cont c3 && is_cont c4
                           && ((65536 <=? p4) && (p4 <? 1114112))%N
                        then p4 :: code_points r4
                        else raw c1 :: code_points r1
                    | EmptyString => raw c1 :: code_points r1
                    end
              | EmptyString => raw c1 :: code_points r1
              end
        | EmptyString => raw c1 :: code_points r1
        end
  end.

Definition utf8 (cp : N) : string :=
  (if cp <? 128 then String (ascii_of_N cp) ""
   else if cp <? 2048 then
     String (ascii_of_N (192 + cp / 64))
       (String (ascii_of_N (128 + cp mod 64)) "")
   else if cp <? 65536 then
     String (ascii_of_N (224 + cp / 4096))
       (String (ascii_of_N (128 + (cp / 64) mod 64))
          (String (ascii_of_N (128 + cp mod 64)) ""))
   else if cp <? 1114112 then
     String (ascii_of_N (240 + cp / 262144))
       (String (ascii_of_N (128 + (cp / 4096) mod 64))
          (String (ascii_of_N (128 + (cp / 64) mod 64))
             (String (ascii_of_N (128 + cp mod 64)) "")))
   else String (ascii_of_N (cp - 1114112)) "")%N.

Fixpoint of_code_points (l : list N) : string :=
  match l with
  | [] => ""
  | cp :: r => utf8 cp ++ of_code_points r
  end.

(** *** Letter case (Unicode Character Database, version 14.0)

    [lower_table] is the simple lowercase mapping: an entry
    [(first, last, step, target)] sends the code points [first],
    [first + step], ... up to [last] to [target], [target + step], ...
    [case_ignorable] and [cased] are the ranges of those two properties;
    of [cased], the code points that are not case-ignorable as well. *)

Definition lower_table : list (N * N * N * N) :=
  [
   (65, 90, 1, 97); (192, 214, 1, 224); (216, 222, 1, 248);
   (256, 302, 2, 257); (306, 310, 2, 307); (313, 327, 2, 314);
   (330, 374, 2, 331); (376, 376, 1, 255); (377, 381, 2, 378);
   (385, 385, 1, 595); (386, 388, 2, 387); (390, 390, 1, 596);
   (391, 391, 1, 392); (393, 394, 1, 598); (395, 395, 1, 396);
   (398, 398, 1, 477); (399, 399, 1, 601); (400, 400, 1, 603);
   (401, 401, 1, 402); (403, 403, 1, 608); (404, 404, 1, 611);
   (406, 406, 1, 617); (407, 407, 1, 616); (408, 408, 1, 409);
   (412, 412, 1, 623); (413, 413, 1, 626); (415, 415, 1, 629);
   (416, 420, 2, 417); (422, 422, 1, 640); (423, 423, 1, 424);
   (425, 425, 1, 643); (428, 428, 1, 429); (430, 430, 1, 648);
   (431, 431, 1, 432); (433, 434, 1, 650); (435, 437, 2, 436);
   (439, 439, 1, 658); (440, 440, 1, 441); (444, 444, 1, 445);
   (452, 452, 1, 454); (453, 453, 1, 454); (455, 455, 1, 457);
   (456, 456, 1, 457); (458, 458, 1, 460); (459, 475, 2, 460);
   (478, 494, 2, 479); (497, 497, 1, 499); (498, 500, 2, 499);
   (502, 502, 1, 405); (503, 503, 1, 447); (504, 542, 2, 505);
   (544, 544, 1, 414); (546, 562, 2, 547); (570, 570, 1, 11365);
   (571, 571, 1, 572); (573, 573, 1, 410); (574, 574, 1, 11366);
   (577, 577, 1, 578); (579, 579, 1, 384); (580, 580, 1, 649);
   (581, 581, 1, 652); (582, 590, 2, 583); (880, 882, 2, 881);
   (886, 886, 1, 887); (895, 895, 1, 1011); (902, 902, 1, 940);
   (904, 906, 1, 941); (908, 908, 1, 972); (910, 911, 1, 973);
   (913, 929, 1, 945); (931, 939, 1, 963); (975, 975, 1, 983);
   (984, 1006, 2, 985); (1012, 1012, 1, 952); (1015, 1015, 1, 1016);
   (1017, 1017, 1, 1010); (1018, 1018, 1, 1019); (1021, 1023, 1, 891);
   (1024, 1039, 1, 1104); (1040, 1071, 1, 1072); (1120, 1152, 2, 1121);
   (1162, 1214, 2, 1163); (1216, 1216, 1, 1231); (1217, 1229, 2, 1218);
   (1232, 1326, 2, 1233); (1329, 1366, 1, 1377); (4256, 4293, 1, 11520);
   (4295, 4295, 1, 11559); (4301, 4301, 1, 11565); (5024, 5103, 1, 43888);
   (5104, 5109, 1, 5112); (7312, 7354, 1, 4304); (7357, 7359, 1, 4349);
   (7680, 7828, 2, 7681); (7838, 7838, 1, 223); (7840, 7934, 2, 7841);
   (7944, 7951, 1, 7936); (7960, 7965, 1, 7952); (7976, 7983, 1, 7968);
   (7992, 7999, 1, 7984); (8008, 8013, 1, 8000); (8025, 8031, 2, 8017);
   (8040, 8047, 1, 8032); (8072, 8079, 1, 8064); (8088, 8095, 1, 8080);
   (8104, 8111, 1, 8096); (8120, 8121, 1, 8112); (8122, 8123, 1, 8048);
   (8124, 8124, 1, 8115); (8136, 8139, 1, 8050); (8140, 8140, 1, 8131);
   (8152, 8153, 1, 8144); (8154, 8155, 1, 8054); (8168, 8169, 1, 8160);
   (8170, 8171, 1, 8058); (8172, 8172, 1, 8165); (8184, 8185, 1, 8056);
   (8186, 8187, 1, 8060); (8188, 8188, 1, 8179); (8486, 8486, 1, 969);
   (8490, 8490, 1, 107); (8491, 8491, 1, 229); (8498, 8498, 1, 8526);
   (8544, 8559, 1, 8560); (8579, 8579, 1, 8580); (9398, 9423, 1, 9424);
   (11264, 11311, 1, 11312); (11360, 11360, 1, 11361); (11362, 11362, 1, 619);
   (11363, 11363, 1, 7549); (11364, 11364, 1, 637); (11367, 11371, 2, 11368);
   (11373, 11373, 1, 593); (11374, 11374, 1, 625); (11375, 11375, 1, 592);
   (11376, 11376, 1, 594); (11378, 11378, 1, 11379); (11381, 11381, 1, 11382);
   (11390, 11391, 1, 575); (11392, 11490, 2, 11393); (11499, 11501, 2, 11500);
   (11506, 11506, 1, 11507); (42560, 42604, 2, 42561);
   (42624, 42650, 2, 42625); (42786, 42798, 2, 42787);
   (42802, 42862, 2, 42803); (42873, 42875, 2, 42874);
   (42877, 42877, 1, 7545); (42878, 42886, 2, 42879);
   (42891, 42891, 1, 42892); (42893, 42893, 1, 613); (42896, 42898, 2, 42897);
   (42902, 42920, 2, 42903); (42922, 42922, 1, 614); (42923, 42923, 1, 604);
   (42924, 42924, 1, 609); (42925, 42925, 1, 620); (42926, 42926, 1, 618);
   (42928, 42928, 1, 670); (42929, 42929, 1, 647); (42930, 42930, 1, 669);
   (42931, 42931, 1, 43859); (42932, 42946, 2, 42933);
   (42948, 42948, 1, 42900); (42949, 42949, 1, 642); (42950, 42950, 1, 7566);
   (42951, 42953, 2, 42952); (42960, 42960, 1, 42961);
   (42966, 42968, 2, 42967); (42997, 42997, 1, 42998);
   (65313, 65338, 1, 65345); (66560, 66599, 1, 66600);
   (66736, 66771, 1, 66776); (66928, 66938, 1, 66967);
   (66940, 66954, 1, 66979); (66956, 66962, 1, 66995);
   (66964, 66965, 1, 67003); (68736, 68786, 1, 68800);
   (71840, 71871, 1, 71872); (93760, 93791, 1, 93792);
   (125184, 125217, 1, 125218)
  ]%N.

Definition case_ignorable : list (N * N) :=
  [
   (39, 39); (46, 46); (58, 58); (94, 94); (96, 96); (168, 168); (173, 173);
   (175, 175); (180, 180); (183, 184); (688, 879); (884, 885); (890, 890);
   (900, 901); (903, 903); (1155, 1161); (1369, 1369); (1375, 1375);
   (1425, 1469); (1471, 1471); (1473, 1474); (1476, 1477); (1479, 1479);
   (1524, 1524); (1536, 1541); (1552, 1562); (1564, 1564); (1600, 1600);
   (1611, 1631); (1648, 1648); (1750, 1757); (1759, 1768); (1770, 1773);
   (1807, 1807); (1809, 1809); (1840, 1866); (1958, 1968); (2027, 2037);
   (2042, 2042); (2045, 2045); (2070, 2093); (2137, 2139); (2184, 2184);
   (2192, 2193); (2200, 2207); (2249, 2306); (2362, 2362); (2364, 2364);
   (2369, 2376); (2381, 2381); (2385, 2391); (2402, 2403); (2417, 2417);
   (2433, 2433); (2492, 2492); (2497, 2500); (2509, 2509); (2530, 2531);
   (2558, 2558); (2561, 2562); (2620, 2620); (2625, 2626); (2631, 2632);
   (2635, 2637); (2641, 2641); (2672, 2673); (2677, 2677); (2689, 2690);
   (2748, 2748); (2753, 2757); (2759, 2760); (2765, 2765); (2786, 2787);
   (2810, 2815); (2817, 2817); (2876, 2876); (2879, 2879); (2881, 2884);
   (2893, 2893); (2901, 2902); (2914, 2915); (2946, 2946); (3008, 3008);
   (3021, 3021); (3072, 3072); (3076, 3076); (3132, 3132); (3134, 3136);
   (3142, 3144); (3146, 3149); (3157, 3158); (3170, 3171); (3201, 3201);
   (3260, 3260); (3263, 3263); (3270, 3270); (3276, 3277); (3298, 3299);
   (3328, 3329); (3387, 3388); (3393, 3396); (3405, 3405); (3426, 3427);
   (3457, 3457); (3530, 3530); (3538, 3540); (3542, 3542); (3633, 3633);
   (3636, 3642); (3654, 3662); (3761, 3761); (3764, 3772); (3782, 3782);
   (3784, 3789); (3864, 3865); (3893, 3893); (3895, 3895); (3897, 3897);
   (3953, 3966); (3968, 3972); (3974, 3975); (3981, 3991); (3993, 4028);
   (4038, 4038); (4141, 4144); (4146, 4151); (4153, 4154); (4157, 4158);
   (4184, 4185); (4190, 4192); (4209, 4212); (4226, 4226); (4229, 4230);
   (4237, 4237); (4253, 4253); (4348, 4348); (4957, 4959); (5906, 5908);
   (5938, 5939); (5970, 5971); (6002, 6003); (6068, 6069); (6071, 6077);
   (6086, 6086); (6089, 6099); (6103, 6103); (6109, 6109); (6155, 6159);
   (6211, 6211); (6277, 6278); (6313, 6313); (6432, 6434); (6439, 6440);
   (6450, 6450); (6457, 6459); (6679, 6680); (6683, 6683); (6742, 6742);
   (6744, 6750); (6752, 6752); (6754, 6754); (6757, 6764); (6771, 6780);
   (6783, 6783); (6823, 6823); (6832, 6862); (6912, 6915); (6964, 6964);
   (6966, 6970); (6972, 6972); (6978, 6978); (7019, 7027); (7040, 7041);
   (7074, 7077); (7080, 7081); (7083, 7085); (7142, 7142); (7144, 7145);
   (7149, 7149); (7151, 7153); (7212, 7219); (7222, 7223); (7288, 7293);
   (7376, 7378); (7380, 7392); (7394, 7400); (7405, 7405); (7412, 7412);
   (7416, 7417); (7468, 7530); (7544, 7544); (7579, 7679); (8125, 8125);
   (8127, 8129); (8141, 8143); (8157, 8159); (8173, 8175); (8189, 8190);
   (8203, 8207); (8216, 8217); (8228, 8228); (8231, 8231); (8234, 8238);
   (8288, 8292); (8294, 8303); (8305, 8305); (8319, 8319); (8336, 8348);
   (8400, 8432); (11388, 11389); (11503, 11505); (11631, 11631);
   (11647, 11647); (11744, 11775); (11823, 11823); (12293, 12293);
   (12330, 12333); (12337, 12341); (12347, 12347); (12441, 12446);
   (12540, 12542); (40981, 40981); (42232, 42237); (42508, 42508);
   (42607, 42610); (42612, 42621); (42623, 42623); (42652, 42655);
   (42736, 42737); (42752, 42785); (42864, 42864); (42888, 42890);
   (42994, 42996); (43000, 43001); (43010, 43010); (43014, 43014);
   (43019, 43019); (43045, 43046); (43052, 43052); (43204, 43205);
   (43232, 43249); (43263, 43263); (43302, 43309); (43335, 43345);
   (43392, 43394); (43443, 43443); (43446, 43449); (43452, 43453);
   (43471, 43471); (43493, 43494); (43561, 43566); (43569, 43570);
   (43573, 43574); (43587, 43587); (43596, 43596); (43632, 43632);
   (43644, 43644); (43696, 43696); (43698, 43700); (43703, 43704);
   (43710, 43711); (43713, 43713); (43741, 43741); (43756, 43757);
   (43763, 43764); (43766, 43766); (43867, 43871); (43881, 43883);
   (44005, 44005); (44008, 44008); (44013, 44013); (64286, 64286);
   (64434, 64450); (65024, 65039); (65043, 65043); (65056, 65071);
   (65106, 65106); (65109, 65109); (65279, 65279); (65287, 65287);
   (65294, 65294); (65306, 65306); (65342, 65342); (65344, 65344);
   (65392, 65392); (65438, 65439); (65507, 65507); (65529, 65531);
   (66045, 66045); (66272, 66272); (66422, 66426); (67456, 67461);
   (67463, 67504); (67506, 67514); (68097, 68099); (68101, 68102);
   (68108, 68111); (68152, 68154); (68159, 68159); (68325, 68326);
   (68900, 68903); (69291, 69292); (69446, 69456); (69506, 69509);
   (69633, 69633); (69688, 69702); (69744, 69744); (69747, 69748);
   (69759, 69761); (69811, 69814); (69817, 69818); (69821, 69821);
   (69826, 69826); (69837, 69837); (69888, 69890); (69927, 69931);
   (69933, 69940); (70003, 70003); (70016, 70017); (70070, 70078);
   (70089, 70092); (70095, 70095); (70191, 70193); (70196, 70196);
   (70198, 70199); (70206, 70206); (70367, 70367); (70371, 70378);
   (70400, 70401); (70459, 70460); (70464, 70464); (70502, 70508);
   (70512, 70516); (70712, 70719); (70722, 70724); (70726, 70726);
   (70750, 70750); (70835, 70840); (70842, 70842); (70847, 70848);
   (70850, 70851); (71090, 71093); (71100, 71101); (71103, 71104);
   (71132, 71133); (71219, 71226); (71229, 71229); (71231, 71232);
   (71339, 71339); (71341, 71341); (71344, 71349); (71351, 71351);
   (71453, 71455); (71458, 71461); (71463, 71467); (71727, 71735);
   (71737, 71738); (71995, 71996); (71998, 71998); (72003, 72003);
   (72148, 72151); (72154, 72155); (72160, 72160); (72193, 72202);
   (72243, 72248); (72251, 72254); (72263, 72263); (72273, 72278);
   (72281, 72283); (72330, 72342); (72344, 72345); (72752, 72758);
   (72760, 72765); (72767, 72767); (72850, 72871); (72874, 72880);
   (72882, 72883); (72885, 72886); (73009, 73014); (73018, 73018);
   (73020, 73021); (73023, 73029); (73031, 73031); (73104, 73105);
   (73109, 73109); (73111, 73111); (73459, 73460); (78896, 78904);
   (92912, 92916); (92976, 92982); (92992, 92995); (94031, 94031);
   (94095, 94111); (94176, 94177); (94179, 94180); (110576, 110579);
   (110581, 110587); (110589, 110590); (113821, 113822); (113824, 113827);
   (118528, 118573); (118576, 118598); (119143, 119145); (119155, 119170);
   (119173, 119179); (119210, 119213); (119362, 119364); (121344, 121398);
   (121403, 121452); (121461, 121461); (121476, 121476); (121499, 121503);
   (121505, 121519); (122880, 122886); (122888, 122904); (122907, 122913);
   (122915, 122916); (122918, 122922); (123184, 123197); (123566, 123566);
   (123628, 123631); (125136, 125142); (125252, 125259); (127995, 127999);
   (917505, 917505); (917536, 917631); (917760, 917999)
  ]%N.

Definition cased : list (N * N) :=
  [
   (65, 90); (97, 122); (170, 170); (181, 181); (186, 186); (192, 214);
   (216, 246); (248, 442); (444, 447); (452, 659); (661, 687); (880, 883);
   (886, 887); (891, 893); (895, 895); (902, 902); (904, 906); (908, 908);
   (910, 929); (931, 1013); (1015, 1153); (1162, 1327); (1329, 1366);
   (1376, 1416); (4256, 4293); (4295, 4295); (4301, 4301); (4304, 4346);
   (4349, 4351); (5024, 5109); (5112, 5117); (7296, 7304); (7312, 7354);
   (7357, 7359); (7424, 7467); (7531, 7543); (7545, 7578); (7680, 7957);
   (7960, 7965); (7968, 8005); (8008, 8013); (8016, 8023); (8025, 8025);
   (8027, 8027); (8029, 8029); (8031, 8061); (8064, 8116); (8118, 8124);
   (8126, 8126); (8130, 8132); (8134, 8140); (8144, 8147); (8150, 8155);
   (8160, 8172); (8178, 8180); (8182, 8188); (8450, 8450); (8455, 8455);
   (8458, 8467); (8469, 8469); (8473, 8477); (8484, 8484); (8486, 8486);
   (8488, 8488); (8490, 8493); (8495, 8500); (8505, 8505); (8508, 8511);
   (8517, 8521); (8526, 8526); (8544, 8575); (8579, 8580); (9398, 9449);
   (11264, 11387); (11390, 11492); (11499, 11502); (11506, 11507);
   (11520, 11557); (11559, 11559); (11565, 11565); (42560, 42605);
   (42624, 42651); (42786, 42863); (42865, 42887); (42891, 42894);
   (42896, 42954); (42960, 42961); (42963, 42963); (42965, 42969);
   (42997, 42998); (43002, 43002); (43824, 43866); (43872, 43880);
   (43888, 43967); (64256, 64262); (64275, 64279); (65313, 65338);
   (65345, 65370); (66560, 66639); (66736, 66771); (66776, 66811);
   (66928, 66938); (66940, 66954); (66956, 66962); (66964, 66965);
   (66967, 66977); (66979, 66993); (66995, 67001); (67003, 67004);
   (68736, 68786); (68800, 68850); (71840, 71903); (93760, 93823);
   (119808, 119892); (119894, 119964); (119966, 119967); (119970, 119970);
   (119973, 119974); (119977, 119980); (119982, 119993); (119995, 119995);
   (119997, 120003); (120005, 120069); (120071, 120074); (120077, 120084);
   (120086, 120092); (120094, 120121); (120123, 120126); (120128, 120132);
   (120134, 120134); (120138, 120144); (120146, 120485); (120488, 120512);
   (120514, 120538); (120540, 120570); (120572, 120596); (120598, 120628);
   (120630, 120654); (120656, 120686); (120688, 120712); (120714, 120744);
   (120746, 120770); (120772, 120779); (122624, 122633); (122635, 122654);
   (125184, 125251); (127280, 127305); (127312, 127337); (127344, 127369)
  ]%N.

Fixpoint lookup_lower (t : list (N * N * N * N)) (c : N) : N :=
  match t with
  | [] => c
  | (lo, hi, step, target) :: rest =>
      if ((lo <=? c) && (c <=? hi) && ((c - lo) mod step =? 0))%N
      then (target + (c - lo))%N
      else lookup_lower rest c
  end.

Definition in_ranges (t : list (N * N)) (c : N) : bool :=
  existsb (fun '(lo, hi) => ((lo <=? c) && (c <=? hi))%N) t.

(** The nearest code point of [l] that is not case-ignorable is a cased
    letter. *)
Fixpoint meets_cased (l : list N) : bool :=
  match l with
  | [] => false
  | c :: r =>
      if in_ranges case_ignorable c then meets_cased r
      else in_ranges cased c
  end.

(** The lower case of the code point [c] that stands between [before]
    (nearest first) and [after].  Two code points have more to them than
    the table: capital sigma (931) is the final sigma (962) at the end of a
    word and the small sigma (963) elsewhere, and capital I with dot above
    (304) is [i] followed by a combining dot (775). *)
Definition lower_point (before : list N) (c : N) (after : list N) : list N :=
  if (c =? 931)%N then
    if meets_cased before && negb (meets_cased after) then [962%N]
    else [963%N]
  else if (c =? 304)%N then [105%N; 775%N]
  else [lookup_lower lower_table c].

Fixpoint lower_points (before : list N) (l : list N) : list N :=
  match l with
  | [] => []
  | c :: after =>
      lower_point before c after ++ lower_points (c :: before) after
  end.

(** [String.prototype.toLowerCase]. *)
Definition toLowerCase (s : string) : string :=
  of_code_points (lower_points [] (code_points s)).

Fixpoint startsWith (p s : string) : bool :=
  match p, s with
  | EmptyString, _ => true
  | String a p', String b s' => Ascii.eqb a b && startsWith p' s'
  | String _ _, EmptyString => false
  end.

(** [s.includes(needle)]: [needle] occurs in [s] as a contiguous run. *)
Fixpoint includes (s needle : string) : bool :=
  startsWith needle s ||
  match s with
  | EmptyString => false
  | String _ r => includes r needle
  end.

(** [s.split(',')], with the piece under construction in [cur]. *)
Fixpoint split_go (sep : ascii) (cur : string) (s : string) : list string :=
  match s with
  | EmptyString => [String.rev cur]
  | String c r =>
      if Ascii.eqb c sep then String.rev cur :: split_go sep EmptyString r
      else split_go sep (String c cur) r
  end.

Definition split (sep : ascii) (s : string) : list string :=
  split_go sep EmptyString s.

(** White space and line terminators of ECMAScript, as UTF-8 byte
    sequences: one byte (TAB, LF, VT, FF, CR, SP), two bytes (U+00A0) or
    three bytes (U+1680, U+2000..U+200A, U+2028, U+2029, U+202F, U+205F,
    U+3000, U+FEFF). *)
Definition ws1 (c : ascii) : bool :=
  in_range 9 13 c || (code c =? 32).

Definition ws2 (c1 c2 : ascii) : bool :=
  (code c1 =? 194) && (code c2 =? 160).

Definition ws3 (c1 c2 c3 : ascii) : bool :=
  match code c1, code c2 with
  | 225, 154 => code c3 =? 128
  | 226, 128 => in_range 128 138 c3 || (code c3 =? 168) || (code c3 =? 169)
                || (code c3 =? 175)
  | 226, 129 => code c3 =? 159
  | 227, 128 => code c3 =? 128
  | 239, 187 => code c3 =? 191
  | _, _ => false
  end.

Fixpoint trimStart (s : string) : string :=
  match s with
  | EmptyString => s
  | String c1 r1 =>
      if ws1 c1 then trimStart r1
      else match r1 with
           | EmptyString => s
           | String c2 r2 =>
               if ws2 c1 c2 then trimStart r2
               else match r2 with
                    | EmptyString => s
                    | String c3 r3 => if ws3 c1 c2 c3 then trimStart r3 else s
                    end
           end
  end.

(** The same scan on the reversed text, where the bytes of a multi-byte
    space arrive last byte first. *)
Fixpoint trimStart_rev (s : string) : string :=
  match s with
  | EmptyString => s
  | String c1 r1 =>
      if ws1 c1 then trimStart_rev r1
      else match r1 with
           | EmptyString => s
           | String c2 r2 =>
               if ws2 c2 c1 then trimStart_rev r2
               else match r2 with
                    | EmptyString => s
                    | String c3 r3 =>
                        if ws3 c3 c2 c1 then trimStart_rev r3 else s
                    end
           end
  end.

Definition trimEnd (s : string) : string :=
  String.rev (trimStart_rev (String.rev s)).

(** [String.prototype.trim]. *)
Definition trim (s : string) : string := trimEnd (trimStart s).

(** [s.replace(/^data:image\/\w+;base64,/, '')]: drops a leading data-URL
    header, and returns [s] itself when there is none. *)
Fixpoint skip_word (s : string) : string :=
  match s with
  | String c r => if is_word c then skip_word r else s
  | EmptyString => s
  end.

Fixpoint drop_prefix (p s : string) : option string :=
  match p, s with
  | EmptyString, _ => Some s
  | String a p', String b s' =>
      if Ascii.eqb a b then drop_prefix p' s' else None
  | String _ _, EmptyString => None
  end.

Definition strip_data_url (s : string) : string :=
  match drop_prefix "data:image/" s with
  | Some (String c r) =>
      if is_word c then
        match drop_prefix ";base64," (skip_word r) with
        | Some payload => payload
        | None => s
        end
      else s
  | _ => s
  end.

(** The text matched by [/\{[\s\S]*\}/]: it starts at the first opening
    brace and, the star being greedy, ends at the last closing brace after
    it; there is no match when no closing brace follows the first opening
    one. *)
Fixpoint from_first (c : ascii) (s : string) : option string :=
  match s with
  | EmptyString => None
  | String a r => if Ascii.eqb a c then Some s else from_first c r
  end.

(** The longest prefix of [s] that ends with [c], if [c] occurs. *)
Fixpoint upto_last (c : ascii) (s : string) : option string :=
  match s with
  | EmptyString => None
  | String a r =>
      match upto_last c r with
      | Some p => Some (String a p)
      | None => if Ascii.eqb a c then Some (String a EmptyString) else None
      end
  end.

Definition match_braces (text : string) : option string :=
  match from_first "{" text with
  | Some (String open r) =>
      match upto_last "}" r with
      | Some body => Some (String open body)
      | None => None
      end
  | _ => None
  end.

(** [l.join(sep)] *)
Fixpoint join (sep : string) (l : list string) : string :=
  match l with
  | [] => ""
  | [x] => x
  | x :: r => x ++ sep ++ join sep r
  end.








End Text.

(* ===================================================================== *)
(** ** JSON values and [JSON.parse]                                       *)
(* ===================================================================== *)

Module Json.

(** A number keeps the digits it was written with; the handlers only move
    numbers around, they never compute with them. *)
#[warnings="-register-all"]
Inductive json : Type :=
| JNull
| JBool (b : bool)
| JNum (lexeme : string)
| JStr (s : string)
| JArr (items : list json)
| JObj (members : list (string * json)).

(** Property read [o[k]] on a parsed object. *)
Fixpoint assoc (k : string) (ms : list (string * json)) : option json :=
  match ms with
  | [] => None
  | (k', v) :: r => if String.eqb k k' then Some v else assoc k r
  end.

(** Property write [o[k] = v]: an existing key keeps its place. *)
Fixpoint assoc_set (k : string) (v : json) (ms : list (string * json))
  : list (string * json) :=
  match ms with
  | [] => [(k, v)]
  | (k', v') :: r =>
      if String.eqb k k' then (k, v) :: r else (k', v') :: assoc_set k v r
  end.

Definition get (k : string) (v : json) : option json :=
  match v with
  | JObj ms => assoc k ms
  | _ => None
  end.

(** JavaScript truthiness of a value read from a request ([None] is
    [undefined]).  The number lexemes of JSON that denote zero are made of
    an optional sign, zeros, an optional fraction of zeros and any
    exponent; a lexeme so small that it rounds to zero is not told apart. *)
Fixpoint zero_mantissa (s : string) : bool :=
  match s with
  | EmptyString => true
  | String c r =>
      if Ascii.eqb c "e" || Ascii.eqb c "E" then true
      else (Ascii.eqb c "0" || Ascii.eqb c "." || Ascii.eqb c "-")
           && zero_mantissa r
  end.

Definition truthy (v : option json) : bool :=
  match v with
  | None => false
  | Some JNull => false
  | Some (JBool b) => b
  | Some (JNum l) => negb (zero_mantissa l)
  | Some (JStr s) => negb (String.eqb s "")
  | Some (JArr _) => true
  | Some (JObj _) => true
  end.

Fixpoint eqb (a b : json) {struct a} : bool :=
  match a, b with
  | JNull, JNull => true
  | JBool x, JBool y => Bool.eqb x y
  | JNum x, JNum y => String.eqb x y
  | JStr x, JStr y => String.eqb x y
  | JArr xs, JArr ys =>
      (fix all2 (xs ys : list json) {struct xs} : bool :=
         match xs, ys with
         | [], [] => true
         | x :: xs', y :: ys' => eqb x y && all2 xs' ys'
         | _, _ => false
         end) xs ys
  | JObj xs, JObj ys =>
      (fix all2 (xs ys : list (string * json)) {struct xs} : bool :=
         match xs, ys with
         | [], [] => true
         | (k, x) :: xs', (k', y) :: ys' =>
             String.eqb k k' && eqb x y && all2 xs' ys'
         | _, _ => false
         end) xs ys
  | _, _ => false
  end.

(** *** The parser *)

Inductive presult (A : Type) : Type :=
| POk (a : A) (rest : string)
| PSyntax
| PFuel.
Arguments POk {A} a rest.
Arguments PSyntax {A}.
Arguments PFuel {A}.

(** JSON white space: SP, TAB, LF, CR. *)
Definition is_ws (c : ascii) : bool :=
  let n := Text.code c in (n =? 32) || (n =? 9) || (n =? 10) || (n =? 13).

Fixpoint skip_ws (s : string) : string :=
  match s with
  | String c r => if is_ws c then skip_ws r else s
  | EmptyString => s
  end.

Definition hex_val (c : ascii) : option N :=
  let n := N_of_ascii c in
  if Text.is_digit c then Some (n - 48)%N
  else if Text.in_range 97 102 c then Some (n - 87)%N
  else if Text.in_range 65 70 c then Some (n - 55)%N
  else None.

(** Four hexadecimal digits of a [\u] escape. *)
Definition hex4 (s : string) : option (N * string) :=
  match s with
  | String a (String b (String c (String d r))) =>
      match hex_val a, hex_val b, hex_val c, hex_val d with
      | Some x, Some y, Some z, Some w =>
          Some ((((x * 16 + y) * 16 + z) * 16 + w)%N, r)
      | _, _, _, _ => None
      end
  | _ => None
  end.

Definition byte (n : N) : ascii := ascii_of_N n.

(** UTF-8 bytes of a code point; a lone surrogate half is written with the
    three-byte pattern like any other code point of its range. *)
Definition utf8 (cp : N) (tail : string) : string :=
  (if cp <? 128 then String (byte cp) tail
   else if cp <? 2048 then
     String (byte (192 + cp / 64)) (String (byte (128 + cp mod 64)) tail)
   else if cp <? 65536 then
     String (byte (224 + cp / 4096))
       (String (byte (128 + (cp / 64) mod 64))
          (String (byte (128 + cp mod 64)) tail))
   else
     String (byte (240 + cp / 262144))
       (String (byte (128 + (cp / 4096) mod 64))
          (String (byte (128 + (cp / 64) mod 64))
             (String (byte (128 + cp mod 64)) tail))))%N.

Definition is_high_surrogate (u : N) : bool :=
  ((55296 <=? u) && (u <=? 56319))%N.
Definition is_low_surrogate (u : N) : bool :=
  ((56320 <=? u) && (u <=? 57343))%N.

(** The characters of a string literal after its opening quote, up to and
    including the closing quote.  [acc] holds the decoded text reversed. *)
Fixpoint parse_chars (s : string) (acc : string) : presult string :=
  match s with
  | EmptyString => PSyntax
  | String c r =>
      if Ascii.eqb c Text.dquote then POk (String.rev acc) r
      else if Text.code c <? 32 then PSyntax
      else if Ascii.eqb c "\" then
        match r with
        | String e r' =>
            let simple (x : N) := parse_chars r' (String (byte x) acc) in
            if Ascii.eqb e Text.dquote then simple 34%N
            else if Ascii.eqb e "\" then simple 92%N
            else if Ascii.eqb e "/" then simple 47%N
            else if Ascii.eqb e "b" then simple 8%N
            else if Ascii.eqb e "f" then simple 12%N
            else if Ascii.eqb e "n" then simple 10%N
            else if Ascii.eqb e "r" then simple 13%N
            else if Ascii.eqb e "t" then simple 9%N
            else if Ascii.eqb e "u" then
              match r' with
              | String h1 (String h2 (String h3 (String h4 r4))) =>
                  match hex4 r' with
                  | Some (u, _) =>
                      let single :=
                        parse_chars r4 (String.rev_app (utf8 u "") acc) in
                      if is_high_surrogate u then
                        match r4 with
                        | String b (String v
                            (String l1 (String l2 (String l3 (String l4 r6))))) =>
                            if Ascii.eqb b "\" && Ascii.eqb v "u" then
                              match hex4 (String l1 (String l2
                                            (String l3 (String l4 r6)))) with
                              | Some (lo, _) =>
                                  if is_low_surrogate lo then
                                    let cp := (65536 + (u - 55296) * 1024
                                               + (lo - 56320))%N in
                                    parse_chars r6
                                      (String.rev_app (utf8 cp "") acc)
                                  else single
                              | None => single
                              end
                            else single
                        | _ => single
                        end
                      else single
                  | None => PSyntax
                  end
              | _ => PSyntax
              end
            else PSyntax
        | EmptyString => PSyntax
        end
      else parse_chars r (String c acc)
  end.

Fixpoint take_digits (s : string) : string * string :=
  match s with
  | String c r =>
      if Text.is_digit c then
        let '(d, rest) := take_digits r in (String c d, rest)
      else (EmptyString, s)
  | EmptyString => (EmptyString, s)
  end.

(** [eat c s]: what follows [c] when [s] starts with it. *)
Definition eat (c : ascii) (s : string) : option string :=
  match s with
  | String a r => if Ascii.eqb a c then Some r else None
  | EmptyString => None
  end.

(** int = "0" / digit1-9 *digit *)
Definition number_int (s : string) : option (string * string) :=
  match s with
  | String c r =>
      if Ascii.eqb c "0" then Some ("0", r)
      else if Text.is_digit c then
        let '(d, rest) := take_digits r in Some (String c d, rest)
      else None
  | EmptyString => None
  end.

(** frac = "." 1*digit, optional *)
Definition number_frac (s : string) : option (string * string) :=
  match eat "." s with
  | Some r =>
      match take_digits r with
      | (EmptyString, _) => None
      | (d, rest) => Some (String "." d, rest)
      end
  | None => Some ("", s)
  end.

(** exp = ("e" / "E") ["+" / "-"] 1*digit, optional *)
Definition number_exp (s : string) : option (string * string) :=
  match s with
  | String e r =>
      if Ascii.eqb e "e" || Ascii.eqb e "E" then
        let '(sg, r') :=
          match eat "+" r, eat "-" r with
          | Some t, _ => ("+", t)
          | None, Some t => ("-", t)
          | None, None => ("", r)
          end in
        match take_digits r' with
        | (EmptyString, _) => None
        | (d, rest) => Some (String e (sg ++ d), rest)
        end
      else Some ("", s)
  | EmptyString => Some ("", s)
  end.

(** number = [-] int [frac] [exp] *)
Definition parse_number (s : string) : presult string :=
  let '(sign, s1) :=
    match eat "-" s with
    | Some r => ("-", r)
    | None => ("", s)
    end in
  match number_int s1 with
  | None => PSyntax
  | Some (i, s2) =>
      match number_frac s2 with
      | None => PSyntax
      | Some (f, s3) =>
          match number_exp s3 with
          | None => PSyntax
          | Some (x, s4) => POk (sign ++ i ++ f ++ x) s4
          end
      end
  end.

Definition parse_literal (word : string) (v : json) (s : string)
  : presult json :=
  match Text.drop_prefix word s with
  | Some rest => POk v rest
  | None => PSyntax
  end.

(** What comes after an element or a member: a comma, the closing
    character, or anything else. *)
Inductive separator := Comma (rest : string) | Close (rest : string) | Neither.

Definition separator_of (close : ascii) (s : string) : separator :=
  match skip_ws s with
  | String c r =>
      if Ascii.eqb c "," then Comma r
      else if Ascii.eqb c close then Close r
      else Neither
  | EmptyString => Neither
  end.

(** Values, the elements of an array after its bracket, and the members of
    an object after its brace.  A repeated key keeps its first place and
    takes the last value, as property definition on a JavaScript object
    does. *)
Fixpoint parse_value (fuel : nat) (s : string) : presult json :=
  match fuel with
  | 0 => PFuel
  | S fuel' =>
      match skip_ws s with
      | EmptyString => PSyntax
      | String c r =>
          if Ascii.eqb c "{" then
            match eat "}" (skip_ws r) with
            | Some r' => POk (JObj []) r'
            | None =>
                match parse_members fuel' (skip_ws r) [] with
                | POk ms rest => POk (JObj ms) rest
                | PSyntax => PSyntax
                | PFuel => PFuel
                end
            end
          else if Ascii.eqb c "[" then
            match eat "]" (skip_ws r) with
            | Some r' => POk (JArr []) r'
            | None =>
                match parse_elements fuel' (skip_ws r) [] with
                | POk vs rest => POk (JArr vs) rest
                | PSyntax => PSyntax
                | PFuel => PFuel
                end
            end
          else if Ascii.eqb c Text.dquote then
            match parse_chars r EmptyString with
            | POk str rest => POk (JStr str) rest
            | PSyntax => PSyntax
            | PFuel => PFuel
            end
          else if Ascii.eqb c "-" || Text.is_digit c then
            match parse_number (String c r) with
            | POk l rest => POk (JNum l) rest
            | PSyntax => PSyntax
            | PFuel => PFuel
            end
          else if Ascii.eqb c "t" then parse_literal "true" (JBool true) (String c r)
          else if Ascii.eqb c "f" then parse_literal "false" (JBool false) (String c r)
          else if Ascii.eqb c "n" then parse_literal "null" JNull (String c r)
          else PSyntax
      end
  end

with parse_elements (fuel : nat) (s : string) (acc : list json)
  : presult (list json) :=
  match fuel with
  | 0 => PFuel
  | S fuel' =>
      match parse_value fuel' s with
      | POk v rest =>
          match separator_of "]" rest with
          | Comma rest' => parse_elements fuel' rest' (v :: acc)
          | Close rest' => POk (List.rev (v :: acc)) rest'
          | Neither => PSyntax
          end
      | PSyntax => PSyntax
      | PFuel => PFuel
      end
  end

with parse_members (fuel : nat) (s : string) (acc : list (string * json))
  : presult (list (string * json)) :=
  match fuel with
  | 0 => PFuel
  | S fuel' =>
      match eat Text.dquote (skip_ws s) with
      | Some r =>
          match parse_chars r EmptyString with
          | POk k rest =>
              match eat ":" (skip_ws rest) with
              | Some rest1 =>
                  match parse_value fuel' rest1 with
                  | POk v rest2 =>
                      match separator_of "}" rest2 with
                      | Comma rest3 =>
                          parse_members fuel' rest3 (assoc_set k v acc)
                      | Close rest3 => POk (assoc_set k v acc) rest3
                      | Neither => PSyntax
                      end
                  | PSyntax => PSyntax
                  | PFuel => PFuel
                  end
              | None => PSyntax
              end
          | PSyntax => PSyntax
          | PFuel => PFuel
          end
      | None => PSyntax
      end
  end.

(** [JSON.parse(text)]: one value, surrounded by white space only.  [None]
    is the [SyntaxError] thrown. *)
Definition JSON_parse (text : string) : option json :=
  match parse_value (2 * String.length text + 1) text with
  | POk v rest =>
      match skip_ws rest with
      | EmptyString => Some v
      | _ => None
      end
  | _ => None
  end.

End Json.

Import Json.

(* ===================================================================== *)
(** ** The world the handlers run in                                      *)
(* ===================================================================== *)

Module Env.

(** A row of a store relation, and the body of a JSON request: a JavaScript
    object used as a map from names to values.  A column that is absent
    reads as [null]. *)
Abbreviation row := (gmap string json).

Inductive table := Recipes | Favorites.

(** What is sent to the generative model, by operation.  The fixed
    instruction text of each template is left out; the fields are the
    caller-supplied parts embedded in it. *)
Inductive model_request :=
| AskChef (title tag : string) (ingredients instructions : list string)
          (question : json)                    (* gpt-3.5-turbo, 0.7 *)
| Inspire (prompt : json)                      (* gpt-3.5-turbo, 0.8 *)
| VisionUpload (image : string)                (* gpt-4o, 800 tokens *)
| VisionInline (image : string).               (* gpt-4-vision-preview *)

(** A response of the model: it has no first choice, or its first choice
    carries a [content] that is a text or [null]. *)
Inductive chat_response :=
| NoChoice
| Choice (content : option string).

(** What one call to the model does. *)
Inductive completion :=
| ModelThrows
| ModelReturns (r : chat_response).

Inductive exn :=
| TypeError
| SyntaxError
| ModelError
| StoreError (msg : string)
| FsError
| URIError.

Record world := World {
  recipes : list row;
  favorites : list row;
  next_id : N;                         (* the next identifier the store assigns *)
  uploads : gmap string string;        (* temporary files, by path *)
  model_calls : list model_request;    (* calls made so far, oldest first *)
  store_faults : list (option string); (* pending store outcomes: [Some msg] fails *)
  completions : list completion        (* pending model outcomes *)
}.

Definition rows_of (t : table) (w : world) : list row :=
  match t with Recipes => recipes w | Favorites => favorites w end.

Definition set_rows (t : table) (rs : list row) (w : world) : world :=
  match t with
  | Recipes => World rs (favorites w) (next_id w) (uploads w)
                 (model_calls w) (store_faults w) (completions w)
  | Favorites => World (recipes w) rs (next_id w) (uploads w)
                   (model_calls w) (store_faults w) (completions w)
  end.

Definition set_next_id (n : N) (w : world) : world :=
  World (recipes w) (favorites w) n (uploads w)
    (model_calls w) (store_faults w) (completions w).

Definition set_uploads (u : gmap string string) (w : world) : world :=
  World (recipes w) (favorites w) (next_id w) u
    (model_calls w) (store_faults w) (completions w).

Definition set_model_calls (l : list model_request) (w : world) : world :=
  World (recipes w) (favorites w) (next_id w) (uploads w)
    l (store_faults w) (completions w).

Definition set_store_faults (l : list (option string)) (w : world) : world :=
  World (recipes w) (favorites w) (next_id w) (uploads w)
    (model_calls w) l (completions w).

Definition set_completions (l : list completion) (w : world) : world :=
  World (recipes w) (favorites w) (next_id w) (uploads w)
    (model_calls w) (store_faults w) l.

(** *** The monad: state, and exceptions that keep the state *)

Inductive outcome (A : Type) : Type :=
| Done (a : A)
| Thrown (e : exn).
Arguments Done {A} a.
Arguments Thrown {A} e.

Definition M (A : Type) : Type := world -> outcome A * world.

Definition ret {A} (a : A) : M A := fun w => (Done a, w).

Definition bind {A B} (m : M A) (k : A -> M B) : M B :=
  fun w =>
    match m w with
    | (Done a, w') => k a w'
    | (Thrown e, w') => (Thrown e, w')
    end.

Definition throw {A} (e : exn) : M A := fun w => (Thrown e, w).

(** [try { body } catch (e) { handler }] *)
Definition try_catch {A} (body : M A) (handler : exn -> M A) : M A :=
  fun w =>
    match body w with
    | (Done a, w') => (Done a, w')
    | (Thrown e, w') => handler e w'
    end.

Declare Scope js_scope.
Delimit Scope js_scope with js.
Notation "x <- m ;; k" := (bind m (fun x => k))
  (at level 100, m at next level, right associativity) : js_scope.
Notation "m ;;; k" := (bind m (fun _ => k))
  (at level 100, right associativity) : js_scope.

End Env.

Import Env.
Open Scope js_scope.

(* ===================================================================== *)
(** ** The store client                                                   *)
(* ===================================================================== *)

Module Store.

(** Every call takes the next pending outcome: a fault leaves the
    relations as they are and yields [{ data: null, error }]. *)
Definition store_call {A} (run : world -> A * world) : M (A + string) :=
  fun w =>
    match store_faults w with
    | Some msg :: rest => (Done (inr msg), set_store_faults rest w)
    | None :: rest =>
        let '(a, w') := run (set_store_faults rest w) in (Done (inl a), w')
    | [] => let '(a, w') := run w in (Done (inl a), w')
    end.

(** [.eq(col, v)] *)
Definition eq (col : string) (v : json) (r : row) : bool :=
  match r !! col with
  | Some x => Json.eqb x v
  | None => false
  end.

(** SQL [LIKE] with the escape character [\]: [%] is any run of
    characters, [_] is any one character. *)
Fixpoint like (p : string) : string -> bool :=
  match p with
  | EmptyString =>
      fun s => match s with EmptyString => true | _ => false end
  | String c p' =>
      if Ascii.eqb c "%" then
        fix star (s : string) : bool :=
          like p' s || match s with
                       | String _ s' => star s'
                       | EmptyString => false
                       end
      else if Ascii.eqb c "_" then
        fun s => match s with
                 | String _ s' => like p' s'
                 | EmptyString => false
                 end
      else if Ascii.eqb c "\" then
        match p' with
        | String e p'' =>
            fun s => match s with
                     | String a s' => Ascii.eqb a e && like p'' s'
                     | EmptyString => false
                     end
        | EmptyString => fun _ => false
        end
      else
        fun s => match s with
                 | String a s' => Ascii.eqb a c && like p' s'
                 | EmptyString => false
                 end
  end.

(** The [*] of a pattern reaches the database as [%]. *)
Fixpoint star_to_percent (p : string) : string :=
  match p with
  | EmptyString => EmptyString
  | String c r =>
      String (if Ascii.eqb c "*" then "%"%char else c) (star_to_percent r)
  end.

(** [.ilike(col, pattern)]: [LIKE] without regard to letter case.  The
    database lowers pattern and text by the rules of its locale; here they
    are those of [toLowerCase], from which no locale departs on ASCII
    text. *)
Definition ilike (col : string) (pattern : string) (r : row) : bool :=
  match r !! col with
  | Some (JStr s) =>
      like (Text.toLowerCase (star_to_percent pattern)) (Text.toLowerCase s)
  | _ => false
  end.

(** *** Array literals

    The client sends an array as one text, [{a,b}], which the database
    reads as an array literal: blanks around an element are dropped, an
    element between double quotes is taken as written, a backslash takes
    the next character as it is, an unquoted [NULL] is the null element,
    and braces nest.  An element that is empty, a brace or a quote in the
    wrong place, sub-arrays of different sizes or anything but blanks after
    the closing brace make the literal malformed. *)

Definition is_space (c : ascii) : bool :=
  Text.in_range 9 13 c || (Text.code c =? 32).

Fixpoint skip_spaces (s : string) : string :=
  match s with
  | String c r => if is_space c then skip_spaces r else s
  | EmptyString => s
  end.

#[warnings="-register-all"]
Inductive array_item :=
| Element (v : option string)
| SubArray (items : list array_item).

(** An element between double quotes, after the opening quote; [acc] holds
    the text read so far, reversed. *)
Fixpoint read_quoted (s acc : string) : option (string * string) :=
  match s with
  | EmptyString => None
  | String c r =>
      if Ascii.eqb c Text.dquote then Some (String.rev acc, r)
      else if Ascii.eqb c "\" then
        match r with
        | String e r' => read_quoted r' (String e acc)
        | EmptyString => None
        end
      else read_quoted r (String c acc)
  end.

(** An element without quotes, up to the delimiter that ends it.  [acc] is
    the text up to its last character that is not a blank, reversed,
    [pending] the blanks read since, and [escaped] tells whether a
    backslash was used. *)
Fixpoint read_bare (s acc pending : string) (escaped : bool)
  : option (string * bool * string) :=
  match s with
  | EmptyString => None
  | String c r =>
      if Ascii.eqb c "," || Ascii.eqb c "}" then
        Some (String.rev acc, escaped, s)
      else if Ascii.eqb c Text.dquote || Ascii.eqb c "{" then None
      else if Ascii.eqb c "\" then
        match r with
        | String e r' => read_bare r' (String e (pending ++ acc)) "" true
        | EmptyString => None
        end
      else if is_space c then read_bare r acc (String c pending) escaped
      else read_bare r (String c (pending ++ acc)) "" escaped
  end.

Definition is_null (text : string) : bool :=
  String.eqb (Text.lower_ascii text) "null".

(** The items of one level, after its opening brace or after a comma. *)
Fixpoint read_items (fuel : nat) (s : string)
  : option (list array_item * string) :=
  match fuel with
  | O => None
  | S fuel' =>
      let item :=
        match skip_spaces s with
        | EmptyString => None
        | String c r =>
            if Ascii.eqb c "{" then
              match read_items fuel' r with
              | Some (items, rest) => Some (SubArray items, rest)
              | None => None
              end
            else if Ascii.eqb c Text.dquote then
              match read_quoted r "" with
              | Some (text, rest) => Some (Element (Some text), rest)
              | None => None
              end
            else
              match read_bare (String c r) "" "" false with
              | Some (text, escaped, rest) =>
                  if String.eqb text "" then None
                  else if negb escaped && is_null text
                       then Some (Element None, rest)
                       else Some (Element (Some text), rest)
              | None => None
              end
        end in
      match item with
      | Some (x, rest) =>
          match skip_spaces rest with
          | String d rest' =>
              if Ascii.eqb d "," then
                match read_items fuel' rest' with
                | Some (more, rest'') => Some (x :: more, rest'')
                | None => None
                end
              else if Ascii.eqb d "}" then Some ([x], rest')
              else None
          | EmptyString => None
          end
      | None => None
      end
  end.

(** The sizes of an item, outermost first: of an element none, of a
    sub-array its length and the sizes its items share. *)
Fixpoint sizes (x : array_item) : option (list nat) :=
  match x with
  | Element _ => Some []
  | SubArray items =>
      match items with
      | [] => None
      | first :: others =>
          match sizes first with
          | Some d =>
              if forallb (fun y => match sizes y with
                                   | Some d' => bool_decide (d = d')
                                   | None => false
                                   end) others
              then Some (length items :: d)
              else None
          | None => None
          end
      end
  end.

Fixpoint elements (x : array_item) : list (option string) :=
  match x with
  | Element v => [v]
  | SubArray items => List.flat_map elements items
  end.

(** The elements of the array literal [literal], all levels in one list,
    when it is well formed.  An array has at most six levels. *)
Definition array_in (literal : string) : option (list (option string)) :=
  match skip_spaces literal with
  | String c r =>
      if Ascii.eqb c "{" then
        match skip_spaces r with
        | EmptyString => None
        | String d r' =>
            if Ascii.eqb d "}" then
              match skip_spaces r' with
              | EmptyString => Some []
              | _ => None
              end
            else
              match read_items (String.length literal) r with
              | Some (items, rest) =>
                  match skip_spaces rest, sizes (SubArray items) with
                  | EmptyString, Some d =>
                      if length d <=? 6 then Some (elements (SubArray items))
                      else None
                  | _, _ => None
                  end
              | None => None
              end
        end
      else None
  | EmptyString => None
  end.

(** The values of an array column, all levels in one list. *)
Fixpoint leaves (v : json) : list json :=
  match v with
  | JArr items => List.flat_map leaves items
  | _ => [v]
  end.

(** [.overlaps(col, tags)] sends [{t1,t2,..}]: the rows whose array column
    shares an element with the array the database reads from it, or the
    message of the error when it cannot read it. *)
Definition overlaps (col : string) (tags : list string)
  : string + (row -> bool) :=
  let literal := "{" ++ Text.join "," tags ++ "}" in
  match array_in literal with
  | Some wanted =>
      inr (fun r : row =>
             match r !! col with
             | Some (JArr items) =>
                 existsb (fun e => match e with
                                   | Some t =>
                                       existsb (Json.eqb (JStr t))
                                         (leaves (JArr items))
                                   | None => false
                                   end) wanted
             | _ => false
             end)
  | None => inl ("malformed array literal: " ++ Text.quoted literal)
  end.

(** The store fills in [id] on a row inserted without one. *)
Definition with_id (n : N) (r : row) : row :=
  match r !! "id" with
  | Some _ => r
  | None => <["id" := JNum (pretty n)]> r
  end.

Fixpoint assign_ids (n : N) (rs : list row) : list row * N :=
  match rs with
  | [] => ([], n)
  | r :: rest =>
      match r !! "id" with
      | Some _ => let '(rs', n') := assign_ids n rest in (r :: rs', n')
      | None =>
          let '(rs', n') := assign_ids (N.succ n) rest in
          (with_id n r :: rs', n')
      end
  end.

(** [.from(t).select(..)] with the filter [p] *)
Definition db_select (t : table) (p : row -> bool) : M (list row + string) :=
  store_call (fun w => (List.filter p (rows_of t w), w)).

(** A request the database cannot read: it answers with [message], unless
    the call fails before it gets there. *)
Definition db_refuse {A} (message : string) : M (A + string) :=
  fun w =>
    match store_faults w with
    | Some msg :: rest => (Done (inr msg), set_store_faults rest w)
    | None :: rest => (Done (inr message), set_store_faults rest w)
    | [] => (Done (inr message), w)
    end.

(** [.from(t).insert(rows)]; the rows as stored are the [data] of a
    trailing [.select()] *)
Definition db_insert (t : table) (rs : list row) : M (list row + string) :=
  store_call (fun w =>
    let '(rs', n') := assign_ids (next_id w) rs in
    (rs', set_next_id n' (set_rows t (rows_of t w ++ rs') w))).

(** [.from(t).update(fields)] with the filter [p]: the supplied columns are
    written over the matching rows. *)
Definition db_update (t : table) (fields : row) (p : row -> bool)
  : M (list row + string) :=
  store_call (fun w =>
    let write (r : row) : row := if p r then fields ∪ r else r in
    (List.map write (List.filter p (rows_of t w)),
     set_rows t (List.map write (rows_of t w)) w)).

(** [.from(t).delete()] with the filter [p] *)
Definition db_delete (t : table) (p : row -> bool) : M (list row + string) :=
  store_call (fun w =>
    (List.filter p (rows_of t w),
     set_rows t (List.filter (fun r => negb (p r)) (rows_of t w)) w)).

(** [.maybeSingle()]: no row is [null], one row is that row, more rows are
    an error. *)
Definition maybeSingle (r : list row + string) : option row + string :=
  match r with
  | inr e => inr e
  | inl [] => inl None
  | inl [x] => inl (Some x)
  | inl _ => inr "JSON object requested, multiple (or no) rows returned"
  end.

End Store.

Import Store.

(* ===================================================================== *)
(** ** The generative model and the upload directory                      *)
(* ===================================================================== *)

Module Effects.

(** [await openai.chat.completions.create(..)]: the call is logged, then
    the next pending completion decides what it does.  With nothing
    pending the call fails. *)
Definition call_model (rq : model_request) : M chat_response :=
  fun w =>
    let w1 := set_model_calls (model_calls w ++ [rq]) w in
    match completions w with
    | ModelReturns r :: rest => (Done r, set_completions rest w1)
    | ModelThrows :: rest => (Thrown ModelError, set_completions rest w1)
    | [] => (Thrown ModelError, w1)
    end.

(** [response.choices[0].message.content] *)
Definition message_content (r : chat_response) : M (option string) :=
  match r with
  | NoChoice => throw TypeError
  | Choice content => ret content
  end.

(** [fs.readFileSync(path, { encoding: 'base64' })]; the text returned
    stands for the encoded content. *)
Definition readFileSync (path : string) : M string :=
  fun w =>
    match uploads w !! path with
    | Some content => (Done content, w)
    | None => (Thrown FsError, w)
    end.

(** [fs.unlinkSync(path)] *)
Definition unlinkSync (path : string) : M unit :=
  fun w =>
    match uploads w !! path with
    | Some _ => (Done tt, set_uploads (delete path (uploads w)) w)
    | None => (Thrown FsError, w)
    end.

End Effects.

Import Effects.

(* ===================================================================== *)
(** ** The request handlers                                               *)
(* ===================================================================== *)

Module Handlers.

(** A value of [req.query], as the query parser of Express builds it: a
    text; an array, when the parameter is repeated or written [tag[]=..];
    an object, when it is written with a key, [tag[x]=..]. *)
#[warnings="-register-all"]
Inductive qvalue :=
| QStr (s : string)
| QArr (items : list qvalue)
| QObj (members : list (string * qvalue)).

Definition qtruthy (v : option qvalue) : bool :=
  match v with
  | None => false
  | Some (QStr s) => negb (String.eqb s "")
  | Some (QArr _) => true
  | Some (QObj _) => true
  end.

Definition join := Text.join.

(** The text a query value takes inside a template literal or as an item
    of [join]. *)
Fixpoint qdisplay (v : qvalue) : string :=
  match v with
  | QStr s => s
  | QArr items => join "," (List.map qdisplay items)
  | QObj _ => "[object Object]"
  end.

Definition qtext (v : option qvalue) : string :=
  match v with
  | None => "undefined"
  | Some x => qdisplay x
  end.

(** [Array.isArray(tag) ? tag : tag.split(',')]; an object has no [split]
    to call ([None]). *)
Definition tags_of (tag : option qvalue) : option (list qvalue) :=
  match tag with
  | Some (QArr items) => Some items
  | Some (QStr s) => Some (List.map QStr (Text.split "," s))
  | Some (QObj _) => None
  | None => None
  end.

(** The text a value takes inside a template literal. *)
Fixpoint display (v : json) : string :=
  match v with
  | JNull => "null"
  | JBool true => "true"
  | JBool false => "false"
  | JNum l => l
  | JStr s => s
  | JArr items =>
      join "," (List.map (fun x => match x with
                                   | JNull => ""
                                   | _ => display x
                                   end) items)
  | JObj _ => "[object Object]"
  end.

Definition display_opt (v : option json) : string :=
  match v with
  | None => "undefined"
  | Some x => display x
  end.

Inductive reply :=
| Error (msg : string)                   (* { error: msg } *)
| Answer (text : string)                 (* { answer } *)
| RecipeList (rows : list (option row))  (* { recipes: rows } *)
| Ideas (recipes : json)                 (* { recipes } *)
| Success (data : option (list row))     (* { success: true, data } *)
| Unfavorited                            (* { success: true } *)
| IsFavorited (b : bool)                 (* { isFavorited } *)
| Extracted (v : json)                   (* the extracted object itself *)
| ExtractedRecipe (v : json).            (* { recipe: recipeData } *)

Record response := Response { status : nat; body : reply }.

Definition send (code : nat) (b : reply) : M response :=
  ret (Response code b).

(** A handler that throws sends no response. *)
Definition run (h : M response) (w : world) : option response * world :=
  match h w with
  | (Done r, w') => (Some r, w')
  | (Thrown _, w') => (None, w')
  end.

Definition or_null (v : option json) : json :=
  match v with Some x => x | None => JNull end.

Fixpoint filterM {A} (p : A -> M bool) (l : list A) : M (list A) :=
  match l with
  | [] => ret []
  | x :: r =>
      b <- p x ;;
      rest <- filterM p r ;;
      ret (if b then x :: rest else rest)
  end.

(** *** POST /ask-ai-chef *)

Definition chef_prompt (recipe : json) (question : json) : M model_request :=
  match Json.get "ingredients" recipe, Json.get "instructions" recipe with
  | Some (JArr ings), Some (JArr steps) =>
      ret (AskChef (display_opt (Json.get "title" recipe))
                   (display_opt (Json.get "tag" recipe))
                   (List.map display ings) (List.map display steps) question)
  | Some (JArr _), _ => throw TypeError
  | _, _ => throw TypeError
  end.

Definition ask_ai_chef (req_body : row) : M response :=
  let question := req_body !! "question" in
  let recipe := req_body !! "recipe" in
  if negb (truthy question) || negb (truthy recipe) then
    send 400 (Error "Question and recipe are required.")
  else
    systemPrompt <- chef_prompt (or_null recipe) (or_null question) ;;
    try_catch
      (response <- call_model systemPrompt ;;
       content <- message_content response ;;
       match content with
       | Some text => send 200 (Answer (Text.trim text))
       | None => throw TypeError
       end)
      (fun _ => send 500 (Error "Failed to fetch response from AI.")).

(** *** GET /api/recipes *)

Definition api_recipes (query : gmap string qvalue) : M response :=
  let user_id := query !! "user_id" in
  let search := query !! "search" in
  let tag := query !! "tag" in
  if negb (qtruthy user_id) then send 400 (Error "user_id is required")
  else
    let by_owner := Store.eq "user_id" (JStr (qtext user_id)) in
    let by_title (r : row) :=
      if qtruthy search then ilike "title" ("%" ++ qtext search ++ "%") r
      else true in
    by_tag <- (if qtruthy tag then
                 match tags_of tag with
                 | Some tags => ret (overlaps "tag" (List.map qdisplay tags))
                 | None => throw TypeError
                 end
               else ret (inr (fun _ : row => true))) ;;
    result <- match by_tag with
              | inr has_tag =>
                  db_select Recipes
                    (fun r => by_owner r && by_title r && has_tag r)
              | inl message => db_refuse message
              end ;;
    match result with
    | inr message => send 500 (Error message)
    | inl data => send 200 (RecipeList (List.map Some data))
    end.

(** *** POST /favorite-recipe *)

Definition favorite_recipe (req_body : row) : M response :=
  let user_id := req_body !! "user_id" in
  let recipe_id := req_body !! "recipe_id" in
  if negb (truthy user_id) || negb (truthy recipe_id) then
    send 400 (Error "Missing user_id or recipe_id.")
  else
    try_catch
      (result <- db_insert Favorites
                   [ <["user_id" := or_null user_id]>
                       {["recipe_id" := or_null recipe_id]} ] ;;
       match result with
       | inr e => throw (StoreError e)
       | inl _ => send 200 (Success None)
       end)
      (fun _ => send 500 (Error "Failed to favorite recipe.")).

(** *** DELETE /favorite-recipe *)

Definition unfavorite_recipe (req_body : row) : M response :=
  let user_id := req_body !! "user_id" in
  let recipe_id := req_body !! "recipe_id" in
  if negb (truthy user_id) || negb (truthy recipe_id) then
    send 400 (Error "Missing user_id or recipe_id.")
  else
    try_catch
      (result <- db_delete Favorites
                   (fun r => Store.eq "user_id" (or_null user_id) r
                             && Store.eq "recipe_id" (or_null recipe_id) r) ;;
       match result with
       | inr e => throw (StoreError e)
       | inl _ => send 200 Unfavorited
       end)
      (fun _ => send 500 (Error "Failed to unfavorite recipe.")).

(** *** POST /favorite-recipe-check *)

Definition favorite_recipe_check (req_body : row) : M response :=
  let user_id := req_body !! "user_id" in
  let recipe_id := req_body !! "recipe_id" in
  if negb (truthy user_id) || negb (truthy recipe_id) then
    send 400 (Error "Missing user_id or recipe_id.")
  else
    try_catch
      (rows <- db_select Favorites
                 (fun r => Store.eq "user_id" (or_null user_id) r
                           && Store.eq "recipe_id" (or_null recipe_id) r) ;;
       match maybeSingle rows with
       | inr e => throw (StoreError e)
       | inl data => send 200 (IsFavorited (bool_decide (is_Some data)))
       end)
      (fun _ => send 500 (Error "Failed to check favorite status.")).

(** *** POST /save-recipe *)

Definition save_recipe (req_body : row) : M response :=
  let recipe := req_body !! "recipe" in
  if negb (truthy recipe)
     || negb (truthy (Json.get "title" (or_null recipe))) then
    send 400 (Error "Invalid recipe.")
  else
    try_catch
      (result <- db_insert Recipes
                   [ match or_null recipe with
                     | JObj members => list_to_map members
                     | _ => ∅
                     end ] ;;
       match result with
       | inr e => throw (StoreError e)
       | inl data => send 200 (Success (Some data))
       end)
      (fun _ => send 500 (Error "Failed to save recipe.")).

(** *** POST /inspire-recipes *)

Definition inspire_recipes (req_body : row) : M response :=
  let prompt := req_body !! "prompt" in
  if negb (truthy prompt) then send 400 (Error "Prompt is required.")
  else
    try_catch
      (response <- call_model (Inspire (or_null prompt)) ;;
       content <- message_content response ;;
       match content with
       | None => throw TypeError
       | Some text =>
           let rawText := Text.trim text in
           match JSON_parse rawText with
           | None => send 500 (Error "Failed to parse AI response.")
           | Some recipes => send 200 (Ideas recipes)
           end
       end)
      (fun _ => send 500 (Error "Failed to generate recipe inspiration.")).

(** *** GET /api/favorite-recipes *)

(** The columns of the embedded [recipes (..)] selection. *)
Definition recipe_columns : list string :=
  ["id"; "title"; "tag"; "ingredients"; "instructions"; "nutrition_info";
   "user_id"; "highlight"; "image"; "supporting_images"; "created_at"].

(** [fav.recipes]: the recipe the relation row refers to, or [null]. *)
Definition embedded_recipe (w : world) (fav : row) : option row :=
  match fav !! "recipe_id" with
  | Some rid =>
      match List.find (Store.eq "id" rid) (recipes w) with
      | Some r => Some (filter (fun kv => kv.1 ∈ recipe_columns) r)
      | None => None
      end
  | None => None
  end.

Definition title_matches (search : option qvalue) (recipe : option row)
  : M bool :=
  match recipe with
  | Some r =>
      match r !! "title", search with
      | Some (JStr title), Some (QStr s) =>
          ret (Text.includes (Text.toLowerCase title) (Text.toLowerCase s))
      | _, _ => throw TypeError
      end
  | None => throw TypeError
  end.

(** [tags.some(t => recipe.tag.includes(t))]: of an array [includes] finds
    a text equal to [t], of a text [includes] finds [t] written out. *)
Definition tag_matches (tags : list qvalue) (recipe : option row) : M bool :=
  match tags with
  | [] => ret false
  | _ :: _ =>
      match recipe with
      | Some r =>
          match r !! "tag" with
          | Some (JArr items) =>
              ret (existsb (fun t => match t with
                                     | QStr s => existsb (Json.eqb (JStr s)) items
                                     | _ => false
                                     end) tags)
          | Some (JStr s) =>
              ret (existsb (fun t => Text.includes s (qdisplay t)) tags)
          | _ => throw TypeError
          end
      | None => throw TypeError
      end
  end.

Definition api_favorite_recipes (query : gmap string qvalue) : M response :=
  let user_id := query !! "user_id" in
  let search := query !! "search" in
  let tag := query !! "tag" in
  if negb (qtruthy user_id) then send 400 (Error "user_id is required")
  else
    result <- store_call (fun w =>
                (List.map (embedded_recipe w)
                   (List.filter (Store.eq "user_id" (JStr (qtext user_id)))
                      (favorites w)), w)) ;;
    match result with
    | inr message => send 500 (Error message)
    | inl favoriteRecipes =>
        searched <- (if qtruthy search
                     then filterM (title_matches search) favoriteRecipes
                     else ret favoriteRecipes) ;;
        filteredRecipes <- (if qtruthy tag then
                              match tags_of tag with
                              | Some tags => filterM (tag_matches tags) searched
                              | None => throw TypeError
                              end
                            else ret searched) ;;
        send 200 (RecipeList filteredRecipes)
    end.

(** *** PATCH /update-recipe *)

Definition update_recipe (req_body : row) : M response :=
  let id := req_body !! "id" in
  let fieldsToUpdate := delete "id" req_body in
  if negb (truthy id) then send 400 (Error "Recipe id is required.")
  else
    try_catch
      (result <- db_update Recipes fieldsToUpdate
                   (Store.eq "id" (or_null id)) ;;
       match result with
       | inr e => throw (StoreError e)
       | inl data => send 200 (Success (Some data))
       end)
      (fun _ => send 500 (Error "Failed to update recipe.")).

(** *** POST /analyze-recipe-image, the version that takes an uploaded
    file; [file] is [req.file.path] when the request carries one. *)

Definition analyze_recipe_image_upload (file : option string) : M response :=
  try_catch
    (match file with
     | None => throw TypeError
     | Some filePath =>
         imageData <- readFileSync filePath ;;
         response <- call_model (VisionUpload imageData) ;;
         parsed <- try_catch
                     (content <- message_content response ;;
                      match content with
                      | None => throw TypeError
                      | Some text =>
                          match Text.match_braces text with
                          | None => throw TypeError
                          | Some found =>
                              match JSON_parse found with
                              | None => throw SyntaxError
                              | Some v => ret (Some v)
                              end
                          end
                      end)
                     (fun _ => ret None) ;;
         match parsed with
         | None => send 500 (Error "Failed to parse AI response.")
         | Some extracted =>
             unlinkSync filePath ;;;
             send 200 (Extracted extracted)
         end
     end)
    (fun _ => send 500 (Error "Failed to analyze image.")).

(** [upload.single('file')], the middleware in front of that handler: the
    part named [file], when the request has one, is written to a new file
    of [uploads/] and the path of the file is handed on as [req.file.path].
    [part] is the path chosen for the file and the content of the part. *)
Definition upload_single (part : option (string * string))
  : M (option string) :=
  match part with
  | Some (path, content) =>
      fun w => (Done (Some path), set_uploads (<[path := content]> (uploads w)) w)
  | None => ret None
  end.

(** The route as a whole. *)
Definition analyze_recipe_image_route (part : option (string * string))
  : M response :=
  file <- upload_single part ;;
  analyze_recipe_image_upload file.

(** *** POST /analyze-recipe-image, the version that takes the image
    inline in the body *)

Definition analyze_recipe_image_inline (req_body : row) : M response :=
  let image := req_body !! "image" in
  if negb (truthy image) then send 400 (Error "Image data is required.")
  else
    match or_null image with
    | JStr data =>
        let base64Image := Text.strip_data_url data in
        try_catch
          (response <- call_model (VisionInline base64Image) ;;
           content <- message_content response ;;
           match (match content with
                  | Some text => JSON_parse text
                  | None => Some JNull
                  end) with
           | None =>
               send 500 (Error "Failed to parse recipe data from image.")
           | Some recipeData => send 200 (ExtractedRecipe recipeData)
           end)
          (fun _ => send 500 (Error "Failed to analyze recipe image."))
    | _ => throw TypeError
    end.

(** *** POST /delete-recipe *)

Definition delete_recipe (req_body : row) : M response :=
  let id := req_body !! "id" in
  if negb (truthy id) then send 400 (Error "Recipe id is required.")
  else
    try_catch
      (favResult <- db_delete Favorites (Store.eq "recipe_id" (or_null id)) ;;
       match favResult with
       | inr favError => throw (StoreError favError)
       | inl _ =>
           result <- db_delete Recipes (Store.eq "id" (or_null id)) ;;
           match result with
           | inr e => throw (StoreError e)
           | inl data => send 200 (Success (Some data))
           end
       end)
      (fun _ => send 500 (Error "Failed to delete recipe.")).

End Handlers.

Import Handlers.

(* ===================================================================== *)
(** ** The server: one request after another                              *)
(* ===================================================================== *)

Module Server.

Inductive request :=
| AskAiChef (req_body : row)
| ApiRecipes (query : gmap string qvalue)
| FavoriteRecipe (req_body : row)
| UnfavoriteRecipe (req_body : row)
| FavoriteRecipeCheck (req_body : row)
| SaveRecipe (req_body : row)
| InspireRecipes (req_body : row)
| ApiFavoriteRecipes (query : gmap string qvalue)
| UpdateRecipe (req_body : row)
| AnalyzeRecipeImageUpload (file : option string)
| AnalyzeRecipeImageInline (req_body : row)
| DeleteRecipe (req_body : row).

Definition handler (rq : request) : M response :=
  match rq with
  | AskAiChef b => ask_ai_chef b
  | ApiRecipes q => api_recipes q
  | FavoriteRecipe b => favorite_recipe b
  | UnfavoriteRecipe b => unfavorite_recipe b
  | FavoriteRecipeCheck b => favorite_recipe_check b
  | SaveRecipe b => save_recipe b
  | InspireRecipes b => inspire_recipes b
  | ApiFavoriteRecipes q => api_favorite_recipes q
  | UpdateRecipe b => update_recipe b
  | AnalyzeRecipeImageUpload f => analyze_recipe_image_upload f
  | AnalyzeRecipeImageInline b => analyze_recipe_image_inline b
  | DeleteRecipe b => delete_recipe b
  end.

Definition serve (rq : request) (w : world) : world := (run (handler rq) w).2.


End Server.

Import Server.

(* ===================================================================== *)
(** ** What the statements below observe                                  *)
(* ===================================================================== *)

Module Observe.

(** The next [n] store calls succeed. *)
Definition store_healthy (n : nat) (w : world) : bool :=
  forallb (fun f => match f with None => true | Some _ => false end)
    (take n (store_faults w)).

(** The relation rows that link [user_id] and [recipe_id]. *)
Definition links (user_id recipe_id : json) (w : world) : list row :=
  List.filter (fun r => Store.eq "user_id" user_id r
                        && Store.eq "recipe_id" recipe_id r) (favorites w).

(** The relation rows that refer to the recipe [id]. *)
Definition referring (id : json) (w : world) : list row :=
  List.filter (Store.eq "recipe_id" id) (favorites w).



(** 1 when the handler answered 200, 0 otherwise. *)
Definition accepted (res : option response) : nat :=
  match res with
  | Some (Response 200 _) => 1
  | _ => 0
  end.

(** A computation that leaves the recipes relation as it found it. *)
Definition keeps_recipes {A} (m : M A) : Prop :=
  forall w, recipes (m w).2 = recipes w.


Fixpoint occurs (c : ascii) (s : string) : bool :=
  match s with
  | EmptyString => false
  | String a r => Ascii.eqb a c || occurs c r
  end.





(** The eight nutrition keys, and those of them a candidate carries. *)
Definition nutrition_keys : list string :=
  ["calories"; "fat"; "cholesterol"; "sodium"; "carbs"; "fiber"; "sugar";
   "protein"].

Definition has_key (k : string) (v : option json) : bool :=
  match v with
  | Some (JObj ms) => bool_decide (is_Some (Json.assoc k ms))
  | _ => false
  end.

Definition has_all_nutrition_keys (candidate : json) : bool :=
  forallb (fun k => has_key k (Json.get "nutrition_info" candidate))
    nutrition_keys.

End Observe.

Import Observe.

(* ===================================================================== *)
(** ** Stores and requests used as examples                               *)
(* ===================================================================== *)

Module Scenario.

Definition r1_row : row :=
  <["id" := JStr "r1"]> (<["user_id" := JStr "ann"]> {["title" := JStr "Toast"]}).

Definition link (user_id recipe_id : string) : row :=
  <["user_id" := JStr user_id]> {["recipe_id" := JStr recipe_id]}.

Definition w_two_fans : world :=
  World [r1_row] [link "bob" "r1"; link "cy" "r2"; link "dee" "r1"] 1 ∅ [] [] [].

Definition w_empty : world := World [] [] 1 ∅ [] [] [].

(** The empty store after a favorite request for a recipe that does not
    exist. *)
Definition w_dangling : world :=
  serve (FavoriteRecipe (link "ann" "ghost")) w_empty.

Definition retitle_r1 : row :=
  <["id" := JStr "r1"]> {["title" := JStr "French Toast"]}.


Definition bare_idea : string :=
  "[{" +:+ Text.quoted "title" +:+ ": " +:+ Text.quoted "Toast" +:+ "}]".

Definition w_idea : world :=
  World [] [] 1 {["uploads/7f3a" := "JPEG"]} [] []
    [ModelReturns (Choice (Some bare_idea))].



Definition w_no_json : world :=
  World [] [] 1 {["uploads/7f3a" := "JPEG"]} [] []
    [ModelReturns (Choice (Some "I could not read a recipe in this photo."))].

Definition abc_row : row :=
  <["id" := JStr "r7"]>
    (<["user_id" := JStr "ann"]>
       (<["title" := JStr "abc"]> {["tag" := JArr [JStr "Snack"]]})).

Definition w_abc : world := World [abc_row] [] 1 ∅ [] [] [].

Definition search_a_c : gmap string qvalue :=
  <["user_id" := QStr "ann"]> {["search" := QStr "a_c"]}.

End Scenario.

Import Scenario.

(* ===================================================================== *)
(** ** The image store helper                                             *)
(* ===================================================================== *)

Module Storage.









End Storage.

Import Storage.

(* ===================================================================== *)
(** ** Kinds of requests and what they leave alone                        *)
(* ===================================================================== *)

Module Frames.

(** The requests that write to the store. *)
Definition is_mutation (rq : request) : bool :=
  match rq with
  | FavoriteRecipe _ | UnfavoriteRecipe _ | SaveRecipe _ | UpdateRecipe _
  | DeleteRecipe _ => true
  | _ => false
  end.

(** The requests that go to the generative model. *)
Definition is_ai (rq : request) : bool :=
  match rq with
  | AskAiChef _ | InspireRecipes _ | AnalyzeRecipeImageUpload _
  | AnalyzeRecipeImageInline _ => true
  | _ => false
  end.

(** The input a handler asks for first is absent or falsy. *)
Definition missing_input (rq : request) : bool :=
  match rq with
  | AskAiChef b =>
      negb (truthy (b !! "question")) || negb (truthy (b !! "recipe"))
  | ApiRecipes q | ApiFavoriteRecipes q => negb (qtruthy (q !! "user_id"))
  | FavoriteRecipe b | UnfavoriteRecipe b | FavoriteRecipeCheck b =>
      negb (truthy (b !! "user_id")) || negb (truthy (b !! "recipe_id"))
  | SaveRecipe b =>
      negb (truthy (b !! "recipe"))
      || negb (truthy (Json.get "title" (or_null (b !! "recipe"))))
  | InspireRecipes b => negb (truthy (b !! "prompt"))
  | UpdateRecipe b | DeleteRecipe b => negb (truthy (b !! "id"))
  | AnalyzeRecipeImageUpload _ => false
  | AnalyzeRecipeImageInline b => negb (truthy (b !! "image"))
  end.

(** The requests whose handler does all its work inside a [try] with a
    [catch] that answers. *)
Definition guarded (rq : request) : bool :=
  match rq with
  | FavoriteRecipe _ | UnfavoriteRecipe _ | FavoriteRecipeCheck _
  | SaveRecipe _ | UpdateRecipe _ | AnalyzeRecipeImageUpload _
  | DeleteRecipe _ => true
  | _ => false
  end.

(** The two relations and the identifier counter. *)
Definition relations (w : world) : list row * list row * N :=
  (recipes w, favorites w, next_id w).

(** A computation that leaves the observation [obs] of the world as it
    found it. *)
Definition keeps {X A : Type} (obs : world -> X) (m : M A) : Prop :=
  forall w, obs (m w).2 = obs w.

(** The predicate of the pair filter of the favorites handlers. *)
Definition is_link (user_id recipe_id : json) (r : row) : bool :=
  Store.eq "user_id" user_id r && Store.eq "recipe_id" recipe_id r.







(** A computation whose response, when it sends one, has a status code in
    [codes]. *)
Definition answers_within {A : Type} (codes : list nat)
    (status_of : A -> option nat) (m : M A) : Prop :=
  forall w a w', m w = (Done a, w') ->
    match status_of a with
    | Some c => In c codes
    | None => True
    end.

(** A computation that always returns, whatever the world. *)
Definition always_returns {A : Type} (m : M A) : Prop :=
  forall w, exists a w', m w = (Done a, w').

(** The JSON value the upload version of image extraction finds in a
    response of the model. *)
Definition extracted_from (r : chat_response) : option json :=
  match r with
  | Choice (Some text) =>
      match Text.match_braces text with
      | Some found => JSON_parse found
      | None => None
      end
  | _ => None
  end.

(** Every character of [s] is a [\w] character. *)
Fixpoint all_word (s : string) : bool :=
  match s with
  | EmptyString => true
  | String c r => Text.is_word c && all_word r
  end.




(** The status code of a response. *)
Definition status_of (r : response) : option nat := Some (status r).

End Frames.

Import Frames.

(* ===================================================================== *)
(** ** More stores and requests used as examples                          *)
(* ===================================================================== *)

Module Cases.

Definition toast_members : list (string * json) :=
  [("title", JStr "Toast"); ("user_id", JStr "ann")].


Definition w_two_recipes : world :=
  World [ <["id" := JStr "r1"]>
            (<["user_id" := JStr "ann"]>
               (<["title" := JStr "French Toast"]>
                  {["tag" := JArr [JStr "Breakfast"; JStr "Snack"]]}));
          <["id" := JStr "r2"]>
            (<["user_id" := JStr "ann"]>
               (<["title" := JStr "Toast Soup"]>
                  {["tag" := JArr [JStr "Lunch"]]})) ]
    [] 1 ∅ [] [] [].

Definition w_store_down : world :=
  World [r1_row] [] 1 ∅ [] [Some "connection refused (db-7.internal)"] [].

Definition w_flaky : world :=
  World [r1_row] [link "bob" "r1"; link "cy" "r2"] 1 ∅ []
    [None; Some "deadlock detected"] [].

Definition w_refusing : world :=
  World [r1_row] [link "bob" "r1"] 1 ∅ []
    [Some "duplicate key value violates unique constraint"] [].

Definition toast_recipe : json :=
  JObj [("title", JStr "Toast"); ("tag", JArr [JStr "Breakfast"; JStr "Snack"]);
        ("ingredients", JArr [JStr "bread"; JNum "2"]);
        ("instructions", JArr [JStr "Toast the bread."])].

Definition ask_about_toast : row :=
  <["question" := JStr "Can I use rye?"]> {["recipe" := toast_recipe]}.

Definition w_chef : world :=
  World [] [] 1 ∅ [] [] [ModelReturns (Choice (Some "  Yes, rye works. "))].

Definition inline_png : row :=
  {["image" := JStr ("data:image/" +:+ "png" +:+ ";base64," +:+ "QUJD")]}.

Definition w_null_content : world :=
  World [] [] 1 ∅ [] [] [ModelReturns (Choice None)].

Definition w_photo : world :=
  World [] [] 1 (<["uploads/7f3a" := "JPEG"]> {["uploads/0b1c" := "PNG"]}) [] []
    [ModelReturns (Choice (Some "Here: {} enjoy"))].



Definition ann_searches_toast : gmap string qvalue :=
  <["user_id" := QStr "ann"]> {["search" := QStr "toast"]}.

End Cases.

Import Cases.

Open Scope list_scope.

(* ===================================================================== *)
(** ** Facts about lists, texts and the store client                      *)
(* ===================================================================== *)

Section list_facts.
Context {A : Type}.
Implicit Types (p : A -> bool) (l : list A).

Lemma filter_negb_filter p l :
  List.filter p (List.filter (fun x => negb (p x)) l) = [].
Proof.
  induction l as [|x l IH]; [reflexivity|].
  simpl. destruct (p x) eqn:E; simpl; [exact IH|].
  rewrite E. exact IH.
Qed.

Lemma filter_negb_id p l :
  List.filter p l = [] -> List.filter (fun x => negb (p x)) l = l.
Proof.
  induction l as [|x l IH]; [reflexivity|].
  simpl. destruct (p x); [discriminate|].
  intros H. simpl. f_equal. auto.
Qed.
End list_facts.

(** Running a handler: the cases of a store call. *)
Ltac store_cases w :=
  let fs := fresh "faults" in
  let E := fresh "Efaults" in
  destruct (store_faults w) as [|[?msg|] fs] eqn:E.

Ltac crush_run :=
  unfold run, send, try_catch, bind, ret, throw,
    db_delete, db_insert, db_select, db_update, store_call in *;
  simpl in *.

(* ===================================================================== *)
(** ** [JSON.parse] decides: the fuel it is given never runs out          *)
(* ===================================================================== *)

Lemma skip_ws_length (s : string) :
  String.length (skip_ws s) <= String.length s.
Proof.
  induction s as [|c s IH]; simpl; [lia|].
  destruct (is_ws c); simpl; lia.
Qed.

Lemma eat_length (c : ascii) (s r : string) :
  eat c s = Some r -> String.length s = S (String.length r).
Proof.
  destruct s as [|a s]; simpl; [discriminate|].
  destruct (Ascii.eqb a c); [|discriminate].
  intros [= ->]. reflexivity.
Qed.

Lemma take_digits_length (s : string) :
  String.length (take_digits s).2 <= String.length s.
Proof.
  induction s as [|c s IH]; simpl; [lia|].
  destruct (Text.is_digit c); simpl; [|lia].
  destruct (take_digits s) as [d rest]. simpl in *. lia.
Qed.

Lemma drop_prefix_length (p s r : string) :
  Text.drop_prefix p s = Some r ->
  String.length s = String.length p + String.length r.
Proof.
  revert s. induction p as [|a p IH]; intros s; simpl.
  - intros [= ->]. reflexivity.
  - destruct s as [|b s]; [discriminate|].
    destruct (Ascii.eqb a b); [|discriminate].
    intros H. simpl. rewrite (IH _ H). reflexivity.
Qed.

Lemma parse_chars_consumes (n : nat) :
  forall s acc, String.length s <= n ->
    parse_chars s acc <> PFuel
    /\ forall x r, parse_chars s acc = POk x r ->
                   String.length r < String.length s.
Proof.
  induction n as [|n IH]; intros s acc Hn.
  - destruct s; simpl in *; [|lia]. split; [discriminate|discriminate].
  - destruct s as [|c s]; simpl in *; [split; discriminate|].
    assert (Hrec : forall t acc', String.length t <= String.length s ->
              parse_chars t acc' <> PFuel
              /\ forall x r, parse_chars t acc' = POk x r ->
                             String.length r < S (String.length s)).
    { intros t acc' Ht. destruct (IH t acc') as [H1 H2]; [lia|].
      split; [exact H1|]. intros x r Hx. specialize (H2 x r Hx). lia. }
    repeat first
      [ solve [split; [discriminate | intros x r0 [= _ <-]; lia]]
      | solve [split; discriminate]
      | solve [apply Hrec; simpl; lia]
      | match goal with
        | |- context [if ?b then _ else _] => destruct b
        | |- context [match hex4 ?t with _ => _ end] =>
            destruct (hex4 t) as [[? ?]|]
        | |- context [match hex_val ?t with _ => _ end] =>
            destruct (hex_val t)
        | |- context [match ?t with EmptyString => _ | String _ _ => _ end] =>
            is_var t; destruct t
        end; simpl String.length in * ].
Qed.

Lemma parse_chars_rest (s acc x r : string) :
  parse_chars s acc = POk x r -> String.length r < String.length s.
Proof. apply (parse_chars_consumes (String.length s) s acc). lia. Qed.

Lemma parse_chars_fuel (s acc : string) : parse_chars s acc <> PFuel.
Proof. apply (parse_chars_consumes (String.length s) s acc). lia. Qed.

Lemma number_int_rest (s i r : string) :
  number_int s = Some (i, r) -> String.length r < String.length s.
Proof.
  destruct s as [|c s]; simpl; [discriminate|].
  destruct (Ascii.eqb c "0"); [intros [= _ <-]; lia|].
  destruct (Text.is_digit c); [|discriminate].
  pose proof (take_digits_length s) as H.
  destruct (take_digits s) as [d rest]. intros [= _ <-]. simpl in H. lia.
Qed.

Lemma number_frac_rest (s f r : string) :
  number_frac s = Some (f, r) -> String.length r <= String.length s.
Proof.
  unfold number_frac. destruct (eat "." s) as [t|] eqn:E.
  - apply eat_length in E. pose proof (take_digits_length t) as H.
    destruct (take_digits t) as [[|d0 d] rest]; [discriminate|].
    intros [= _ <-]. simpl in H. lia.
  - intros [= _ <-]. lia.
Qed.

Lemma number_exp_rest (s x r : string) :
  number_exp s = Some (x, r) -> String.length r <= String.length s.
Proof.
  destruct s as [|e s]; simpl; [intros [= _ <-]; simpl; lia|].
  destruct (Ascii.eqb e "e" || Ascii.eqb e "E"); [|intros [= _ <-]; simpl; lia].
  destruct (eat "+" s) as [t|] eqn:E1; [|destruct (eat "-" s) as [t|] eqn:E2].
  - apply eat_length in E1. pose proof (take_digits_length t) as H.
    destruct (take_digits t) as [[|d0 d] rest]; [discriminate|].
    intros [= _ <-]. simpl in H. lia.
  - apply eat_length in E2. pose proof (take_digits_length t) as H.
    destruct (take_digits t) as [[|d0 d] rest]; [discriminate|].
    intros [= _ <-]. simpl in H. lia.
  - pose proof (take_digits_length s) as H.
    destruct (take_digits s) as [[|d0 d] rest]; [discriminate|].
    intros [= _ <-]. simpl in H. lia.
Qed.

Lemma parse_number_consumes (s : string) :
  parse_number s <> PFuel
  /\ forall l r, parse_number s = POk l r -> String.length r < String.length s.
Proof.
  unfold parse_number.
  assert (Hsign : forall s1, String.length s1 <= String.length s ->
    match number_int s1 with
    | Some (i, s2) =>
        match number_frac s2 with
        | Some (f, s3) =>
            match number_exp s3 with
            | Some (x, s4) => String.length s4 < String.length s
            | None => True
            end
        | None => True
        end
    | None => True
    end).
  { intros s1 H1. destruct (number_int s1) as [[i s2]|] eqn:Ei; [|exact I].
    apply number_int_rest in Ei.
    destruct (number_frac s2) as [[f s3]|] eqn:Ef; [|exact I].
    apply number_frac_rest in Ef.
    destruct (number_exp s3) as [[x s4]|] eqn:Ex; [|exact I].
    apply number_exp_rest in Ex. lia. }
  destruct (eat "-" s) as [t|] eqn:E.
  - apply eat_length in E. specialize (Hsign t ltac:(lia)).
    destruct (number_int t) as [[i s2]|]; [|split; discriminate].
    destruct (number_frac s2) as [[f s3]|]; [|split; discriminate].
    destruct (number_exp s3) as [[x s4]|]; [|split; discriminate].
    split; [discriminate | intros l r [= _ <-]; exact Hsign].
  - specialize (Hsign s ltac:(lia)).
    destruct (number_int s) as [[i s2]|]; [|split; discriminate].
    destruct (number_frac s2) as [[f s3]|]; [|split; discriminate].
    destruct (number_exp s3) as [[x s4]|]; [|split; discriminate].
    split; [discriminate | intros l r [= _ <-]; exact Hsign].
Qed.

Lemma parse_literal_consumes (word : string) (v : json) (s : string) :
  word <> EmptyString ->
  parse_literal word v s <> PFuel
  /\ forall x r, parse_literal word v s = POk x r ->
                 String.length r < String.length s.
Proof.
  intros Hw. unfold parse_literal.
  destruct (Text.drop_prefix word s) as [rest|] eqn:E; [|split; discriminate].
  apply drop_prefix_length in E.
  split; [discriminate|]. intros x r [= _ <-].
  destruct word; [congruence | simpl in E; lia].
Qed.

Lemma separator_of_rest (close : ascii) (s : string) :
  match separator_of close s with
  | Comma r | Close r => String.length r < String.length s
  | Neither => True
  end.
Proof.
  unfold separator_of. pose proof (skip_ws_length s) as H.
  destruct (skip_ws s) as [|c r]; [exact I|]. simpl in H.
  destruct (Ascii.eqb c ","); [lia|].
  destruct (Ascii.eqb c close); [lia | exact I].
Qed.

(** With fuel above twice the length of the text, no parser of the three
    runs out of it; and each one consumes at least one character. *)
Lemma parse_fuel_enough (fuel : nat) :
  (forall s, 2 * String.length s < fuel -> parse_value fuel s <> PFuel)
  /\ (forall s v r, parse_value fuel s = POk v r ->
        String.length r < String.length s)
  /\ (forall s acc, 2 * String.length s + 1 < fuel ->
        parse_elements fuel s acc <> PFuel)
  /\ (forall s acc vs r, parse_elements fuel s acc = POk vs r ->
        String.length r < String.length s)
  /\ (forall s acc, 2 * String.length s + 1 < fuel ->
        parse_members fuel s acc <> PFuel)
  /\ (forall s acc ms r, parse_members fuel s acc = POk ms r ->
        String.length r < String.length s).
Proof.
  induction fuel as [|fuel (IHv & IHvr & IHe & IHer & IHm & IHmr)].
  - repeat split; intros; simpl in *; first [lia | discriminate].
  - split; [|split; [|split; [|split; [|split]]]].
    + (* values: fuel *)
      intros s Hs. simpl. pose proof (skip_ws_length s) as Hws.
      destruct (skip_ws s) as [|c r]; [discriminate|]. simpl in Hws.
      destruct (Ascii.eqb c "{").
      { destruct (eat "}" (skip_ws r)); [discriminate|].
        pose proof (skip_ws_length r) as Hr.
        pose proof (IHm (skip_ws r) [] ltac:(lia)) as Hm.
        destruct (parse_members fuel (skip_ws r) []); congruence. }
      destruct (Ascii.eqb c "[").
      { destruct (eat "]" (skip_ws r)); [discriminate|].
        pose proof (skip_ws_length r) as Hr.
        pose proof (IHe (skip_ws r) [] ltac:(lia)) as He.
        destruct (parse_elements fuel (skip_ws r) []); congruence. }
      destruct (Ascii.eqb c Text.dquote).
      { pose proof (parse_chars_fuel r EmptyString) as Hc.
        destruct (parse_chars r EmptyString); congruence. }
      destruct (Ascii.eqb c "-" || Text.is_digit c).
      { destruct (parse_number_consumes (String c r)) as [Hn _].
        destruct (parse_number (String c r)); congruence. }
      destruct (Ascii.eqb c "t");
        [apply parse_literal_consumes; discriminate|].
      destruct (Ascii.eqb c "f");
        [apply parse_literal_consumes; discriminate|].
      destruct (Ascii.eqb c "n");
        [apply parse_literal_consumes; discriminate|].
      discriminate.
    + (* values: progress *)
      intros s v r0. simpl. pose proof (skip_ws_length s) as Hws.
      destruct (skip_ws s) as [|c r]; [discriminate|]. simpl in Hws.
      destruct (Ascii.eqb c "{").
      { pose proof (skip_ws_length r) as Hr.
        destruct (eat "}" (skip_ws r)) as [r'|] eqn:E.
        - apply eat_length in E. intros [= _ <-]. lia.
        - destruct (parse_members fuel (skip_ws r) []) as [ms rest| |] eqn:Em;
            try discriminate.
          apply IHmr in Em. intros [= _ <-]. lia. }
      destruct (Ascii.eqb c "[").
      { pose proof (skip_ws_length r) as Hr.
        destruct (eat "]" (skip_ws r)) as [r'|] eqn:E.
        - apply eat_length in E. intros [= _ <-]. lia.
        - destruct (parse_elements fuel (skip_ws r) []) as [vs rest| |] eqn:Ee;
            try discriminate.
          apply IHer in Ee. intros [= _ <-]. lia. }
      destruct (Ascii.eqb c Text.dquote).
      { destruct (parse_chars r EmptyString) as [str rest| |] eqn:Ec;
          try discriminate.
        apply parse_chars_rest in Ec. intros [= _ <-]. lia. }
      destruct (Ascii.eqb c "-" || Text.is_digit c).
      { destruct (parse_number_consumes (String c r)) as [_ Hn].
        destruct (parse_number (String c r)) as [l rest| |] eqn:En;
          try discriminate.
        specialize (Hn l rest eq_refl). simpl in Hn. intros [= _ <-]. lia. }
      assert (Hlit : forall word x,
                word <> EmptyString ->
                parse_literal word x (String c r) = POk v r0 ->
                String.length r0 < String.length s).
      { intros word x Hw Hx.
        apply (parse_literal_consumes word x _ Hw) in Hx. simpl in Hx. lia. }
      destruct (Ascii.eqb c "t"); [apply Hlit; discriminate|].
      destruct (Ascii.eqb c "f"); [apply Hlit; discriminate|].
      destruct (Ascii.eqb c "n"); [apply Hlit; discriminate|].
      discriminate.
    + (* elements: fuel *)
      intros s acc Hs. simpl.
      pose proof (IHv s ltac:(lia)) as Hv.
      destruct (parse_value fuel s) as [v rest| |] eqn:Ev;
        [|discriminate|congruence].
      apply IHvr in Ev. pose proof (separator_of_rest "]" rest) as Hsep.
      destruct (separator_of "]" rest) as [r'|r'|]; try discriminate.
      apply IHe. lia.
    + (* elements: progress *)
      intros s acc vs r0. simpl.
      destruct (parse_value fuel s) as [v rest| |] eqn:Ev; try discriminate.
      apply IHvr in Ev. pose proof (separator_of_rest "]" rest) as Hsep.
      destruct (separator_of "]" rest) as [r'|r'|]; try discriminate.
      * intros H. apply IHer in H. lia.
      * intros [= _ <-]. lia.
    + (* members: fuel *)
      intros s acc Hs. simpl. pose proof (skip_ws_length s) as Hws.
      destruct (eat Text.dquote (skip_ws s)) as [r|] eqn:E; [|discriminate].
      apply eat_length in E.
      pose proof (parse_chars_fuel r EmptyString) as Hc.
      destruct (parse_chars r EmptyString) as [k rest| |] eqn:Ec;
        [|discriminate|congruence].
      apply parse_chars_rest in Ec. pose proof (skip_ws_length rest) as Hrest.
      destruct (eat ":" (skip_ws rest)) as [rest1|] eqn:E1; [|discriminate].
      apply eat_length in E1.
      pose proof (IHv rest1 ltac:(lia)) as Hv.
      destruct (parse_value fuel rest1) as [v rest2| |] eqn:Ev;
        [|discriminate|congruence].
      apply IHvr in Ev. pose proof (separator_of_rest "}" rest2) as Hsep.
      destruct (separator_of "}" rest2) as [r'|r'|]; try discriminate.
      apply IHm. lia.
    + (* members: progress *)
      intros s acc ms r0. simpl. pose proof (skip_ws_length s) as Hws.
      destruct (eat Text.dquote (skip_ws s)) as [r|] eqn:E; [|discriminate].
      apply eat_length in E.
      destruct (parse_chars r EmptyString) as [k rest| |] eqn:Ec;
        try discriminate.
      apply parse_chars_rest in Ec. pose proof (skip_ws_length rest) as Hrest.
      destruct (eat ":" (skip_ws rest)) as [rest1|] eqn:E1; [|discriminate].
      apply eat_length in E1.
      destruct (parse_value fuel rest1) as [v rest2| |] eqn:Ev;
        try discriminate.
      apply IHvr in Ev. pose proof (separator_of_rest "}" rest2) as Hsep.
      destruct (separator_of "}" rest2) as [r'|r'|]; try discriminate.
      * intros H. apply IHmr in H. lia.
      * intros [= _ <-]. lia.
Qed.

(** [JSON_parse] answers [None] only for a text that is not JSON. *)
Lemma JSON_parse_never_out_of_fuel (text : string) :
  parse_value (2 * String.length text + 1) text <> PFuel.
Proof. apply parse_fuel_enough. lia. Qed.

(* ===================================================================== *)
(** ** Equality of JSON values                                            *)
(* ===================================================================== *)

Section json_induction.
Variable P : json -> Prop.
Hypothesis Hnull : P JNull.
Hypothesis Hbool : forall b, P (JBool b).
Hypothesis Hnum : forall l, P (JNum l).
Hypothesis Hstr : forall s, P (JStr s).
Hypothesis Harr : forall items, Forall P items -> P (JArr items).
Hypothesis Hobj :
  forall members, Forall (fun kv => P kv.2) members -> P (JObj members).

Fixpoint json_nested_ind (v : json) : P v :=
  match v with
  | JNull => Hnull
  | JBool b => Hbool b
  | JNum l => Hnum l
  | JStr s => Hstr s
  | JArr items =>
      Harr items
        ((fix each (l : list json) : Forall P l :=
            match l with
            | [] => @List.Forall_nil _ P
            | x :: r => @List.Forall_cons _ P x r (json_nested_ind x) (each r)
            end) items)
  | JObj members =>
      Hobj members
        ((fix each (l : list (string * json))
            : Forall (fun kv => P kv.2) l :=
            match l with
            | [] => @List.Forall_nil _ _
            | kv :: r =>
                @List.Forall_cons _ (fun kv => P kv.2) kv r
                  (json_nested_ind kv.2) (each r)
            end) members)
  end.
End json_induction.

Lemma json_eqb_refl (v : json) : Json.eqb v v = true.
Proof.
  induction v as [| b | l | s | items IH | members IH] using json_nested_ind;
    simpl.
  - reflexivity.
  - destruct b; reflexivity.
  - apply String.eqb_refl.
  - apply String.eqb_refl.
  - induction IH as [|x r Hx _ IHr]; [reflexivity|].
    rewrite Hx. exact IHr.
  - induction IH as [|[k x] r Hx _ IHr]; [reflexivity|].
    simpl in Hx. rewrite String.eqb_refl, Hx. exact IHr.
Qed.

Lemma json_eqb_eq (a b : json) : Json.eqb a b = true -> a = b.
Proof.
  revert b.
  induction a as [| x | l | s | items IH | members IH] using json_nested_ind;
    intros [| y | l' | s' | items' | members']; simpl; try discriminate.
  - reflexivity.
  - intros H. apply Bool.eqb_prop in H. congruence.
  - intros H. apply String.eqb_eq in H. congruence.
  - intros H. apply String.eqb_eq in H. congruence.
  - intros H. f_equal. revert items' H.
    induction IH as [|x r Hx _ IHr]; intros [|y r']; try discriminate.
    + reflexivity.
    + intros H. apply andb_prop in H as [H1 H2].
      f_equal; [apply Hx, H1 | apply IHr, H2].
  - intros H. f_equal. revert members' H.
    induction IH as [|[k x] r Hx _ IHr]; intros [|[k' y] r']; try discriminate.
    + reflexivity.
    + intros H. apply andb_prop in H as [H12 H3].
      apply andb_prop in H12 as [H1 H2].
      apply String.eqb_eq in H1. simpl in Hx.
      f_equal; [f_equal; [exact H1 | apply Hx, H2] | apply IHr, H3].
Qed.

Lemma store_eq_spec (col : string) (v : json) (r : row) :
  Store.eq col v r = true <-> r !! col = Some v.
Proof.
  unfold Store.eq. destruct (r !! col) as [x|]; split; intros H.
  - f_equal. apply json_eqb_eq, H.
  - injection H as ->. apply json_eqb_refl.
  - discriminate.
  - discriminate.
Qed.

(* ===================================================================== *)
(** ** Checks on small inputs                                             *)
(* ===================================================================== *)

Example parse_nested :
  JSON_parse ("  [ {" +:+ Text.quoted "n" +:+ ": -1.5e+3, "
              +:+ Text.quoted "t" +:+ ":[true,null , []]} ] ")
  = Some (JArr [JObj [("n", JNum "-1.5e+3");
                      ("t", JArr [JBool true; JNull; JArr []])]]).
Proof. vm_compute. reflexivity. Qed.

Example parse_repeated_key :
  JSON_parse ("{" +:+ Text.quoted "a" +:+ ":1," +:+ Text.quoted "b" +:+ ":2,"
              +:+ Text.quoted "a" +:+ ":3}")
  = Some (JObj [("a", JNum "3"); ("b", JNum "2")]).
Proof. vm_compute. reflexivity. Qed.

Example parse_escapes :
  JSON_parse (Text.quoted "A\né")
  = Some (JStr (String "A" (String (ascii_of_nat 10)
                  (String (ascii_of_nat 195) (String (ascii_of_nat 169) ""))))).
Proof. vm_compute. reflexivity. Qed.

Example parse_rejects :
  List.map JSON_parse ["[1,]"; "01"; "1."; "-"; "tru"; "nullx"; "[1] ]"; " "; "{a:1}"]
  = [None; None; None; None; None; None; None; None; None].
Proof. vm_compute. reflexivity. Qed.

Example parse_numbers :
  List.map JSON_parse ["0"; "-0"; "10.50"; "1E5"; "0.0e-0"]
  = [Some (JNum "0"); Some (JNum "-0"); Some (JNum "10.50"); Some (JNum "1E5");
     Some (JNum "0.0e-0")].
Proof. vm_compute. reflexivity. Qed.

Example truthy_values :
  List.map truthy [None; Some JNull; Some (JStr ""); Some (JNum "0.0");
                   Some (JBool false); Some (JStr "0"); Some (JArr []);
                   Some (JNum "7")]
  = [false; false; false; false; false; true; true; true].
Proof. reflexivity. Qed.

Example trim_both_ends :
  Text.trim (String (ascii_of_nat 9) " [1]  " +:+ String (ascii_of_nat 10) "")
  = "[1]".
Proof. vm_compute. reflexivity. Qed.

Example match_braces_is_greedy :
  Text.match_braces "Sure: {a} and {b} done"= Some "{a} and {b}"
  /\ Text.match_braces "} then {" = None
  /\ Text.match_braces "[1, 2]" = None.
Proof. repeat split; reflexivity. Qed.

Example strip_data_url_header :
  Text.strip_data_url "data:image/png;base64,AAAA" = "AAAA"
  /\ Text.strip_data_url "AAAA" = "AAAA"
  /\ Text.strip_data_url "data:image/;base64,AAAA" = "data:image/;base64,AAAA".
Proof. repeat split; reflexivity. Qed.

Example split_on_commas :
  Text.split "," "Breakfast,Snack,,x" = ["Breakfast"; "Snack"; ""; "x"].
Proof. reflexivity. Qed.

Example like_patterns :
  like "%a_c%" "xxabcxx" = true
  /\ like "%a\_c%" "xxabcxx" = false
  /\ like "%a\_c%" "xxa_cxx" = true
  /\ like "toast" "toast!" = false.
Proof. repeat split; reflexivity. Qed.

(* ===================================================================== *)
(** ** The AI handlers: what comes back from the model's text             *)
(* ===================================================================== *)

(** C1, as the code has it.  Ideation and image extraction answer with the
    value parsed from the model's text, as it is: the handlers add no
    nutrition key and fill nothing in. *)
Theorem ai_handlers_return_the_parsed_value
    (req_body : row) (path image text : string) (v : json)
    (rest : list completion) (w : world) :
  completions w = ModelReturns (Choice (Some text)) :: rest ->
  (truthy (req_body !! "prompt") = true ->
   JSON_parse (Text.trim text) = Some v ->
   (run (inspire_recipes req_body) w).1 = Some (Response 200 (Ideas v)))
  /\ (uploads w !! path = Some image ->
      (exists found, Text.match_braces text = Some found
                     /\ JSON_parse found = Some v) ->
      (run (analyze_recipe_image_upload (Some path)) w).1
      = Some (Response 200 (Extracted v)))
  /\ (req_body !! "image" = Some (JStr image) ->
      truthy (Some (JStr image)) = true ->
      JSON_parse text = Some v ->
      (run (analyze_recipe_image_inline req_body) w).1
      = Some (Response 200 (ExtractedRecipe v))).
Proof.
  intros Hmodel. split; [|split].
  - intros Hprompt Hparse. unfold inspire_recipes.
    rewrite Hprompt. simpl.
    unfold run, try_catch, bind, call_model. rewrite Hmodel. simpl.
    unfold bind, ret. simpl. rewrite Hparse. reflexivity.
  - intros Hfile (found & Hfound & Hparse).
    unfold analyze_recipe_image_upload.
    unfold run, try_catch, bind, readFileSync, call_model.
    rewrite Hfile. simpl. rewrite Hmodel. simpl.
    unfold bind, ret. simpl. rewrite Hfound, Hparse. simpl.
    unfold unlinkSync. simpl. rewrite Hfile. reflexivity.
  - intros Himage Htruthy Hparse. unfold analyze_recipe_image_inline.
    rewrite Himage, Htruthy. simpl.
    unfold run, try_catch, bind, call_model. rewrite Hmodel. simpl.
    unfold bind, ret. simpl. rewrite Hparse. reflexivity.
Qed.

Lemma ai_handlers_return_the_parsed_value_witness :
  (run (inspire_recipes {["prompt" := JStr "breakfast"]}) w_idea).1
  = Some (Response 200 (Ideas (JArr [JObj [("title", JStr "Toast")]]))).
Proof.
  apply (ai_handlers_return_the_parsed_value
           {["prompt" := JStr "breakfast"]} "uploads/7f3a" "JPEG" bare_idea
           (JArr [JObj [("title", JStr "Toast")]]) [] w_idea);
    vm_compute; reflexivity.
Defined.

(** C1 as stated fails: a candidate that comes back from the model without
    [nutrition_info] is returned without it. *)
Lemma nutrition_keys_filled_counterexample :
  ~ (forall (req_body : row) (w : world) (items : list json),
       (run (inspire_recipes req_body) w).1
       = Some (Response 200 (Ideas (JArr items))) ->
       forallb has_all_nutrition_keys items = true).
Proof.
  intros claim.
  specialize (claim {["prompt" := JStr "breakfast"]} w_idea
                [JObj [("title", JStr "Toast")]]).
  assert (H : forallb has_all_nutrition_keys [JObj [("title", JStr "Toast")]]
              = true).
  { apply claim. vm_compute. reflexivity. }
  vm_compute in H. discriminate H.
Qed.

(* ===================================================================== *)
(** ** Prose around the JSON                                              *)
(* ===================================================================== *)









(* ===================================================================== *)
(** ** Favorites                                                          *)
(* ===================================================================== *)

Lemma favorite_recipe_links (req_body : row) (user_id recipe_id : json) (w : world) :
  req_body !! "user_id" = Some user_id ->
  req_body !! "recipe_id" = Some recipe_id ->
  truthy (Some user_id) = true ->
  truthy (Some recipe_id) = true ->
  length (links user_id recipe_id (run (favorite_recipe req_body) w).2)
  = length (links user_id recipe_id w)
    + accepted (run (favorite_recipe req_body) w).1.
Proof.
  intros Hu Hr Tu Tr. unfold favorite_recipe, links.
  rewrite Hu, Hr, Tu, Tr. simpl.
  assert (Hnew : forall n,
    (let r := with_id n (<["user_id" := user_id]> {["recipe_id" := recipe_id]}) in
     Store.eq "user_id" user_id r && Store.eq "recipe_id" recipe_id r) = true).
  { intros n. simpl. unfold with_id.
    rewrite lookup_insert_ne, lookup_singleton_ne by done.
    apply andb_true_intro. split; apply store_eq_spec.
    - rewrite lookup_insert_ne by done. apply lookup_insert_eq.
    - rewrite !lookup_insert_ne by done. apply lookup_singleton_eq. }
  crush_run. rewrite lookup_insert_ne, lookup_singleton_ne by done.
  store_cases w; simpl.
  - rewrite List.filter_app, length_app. simpl.
    specialize (Hnew (next_id w)). simpl in Hnew. rewrite Hnew. reflexivity.
  - lia.
  - rewrite List.filter_app, length_app. simpl.
    specialize (Hnew (next_id w)). simpl in Hnew. rewrite Hnew. reflexivity.
Qed.

(** C3, as the code has it.  The handler inserts without looking: each of
    two favorite calls that the store accepts adds one relation row for the
    pair.  The check answers [true] when exactly one row links the pair, and
    fails when more than one does. *)
Theorem favorite_twice_adds_a_row_per_accepted_insert
    (req_body : row) (user_id recipe_id : json) (w : world) :
  req_body !! "user_id" = Some user_id ->
  req_body !! "recipe_id" = Some recipe_id ->
  truthy (Some user_id) = true ->
  truthy (Some recipe_id) = true ->
  let first := run (favorite_recipe req_body) w in
  let second := run (favorite_recipe req_body) first.2 in
  let check := run (favorite_recipe_check req_body) second.2 in
  length (links user_id recipe_id second.2)
  = length (links user_id recipe_id w) + accepted first.1 + accepted second.1
  /\ (length (links user_id recipe_id second.2) = 1 ->
      store_healthy 1 second.2 = true ->
      check.1 = Some (Response 200 (IsFavorited true)))
  /\ (1 < length (links user_id recipe_id second.2) ->
      check.1 = Some (Response 500 (Error "Failed to check favorite status."))).
Proof.
  intros Hu Hr Tu Tr first second check.
  split; [|split].
  - subst second first.
    rewrite (favorite_recipe_links req_body user_id recipe_id) by assumption.
    rewrite (favorite_recipe_links req_body user_id recipe_id w) by assumption.
    reflexivity.
  - subst check. generalize second.2 as v. clear first second. intros v.
    unfold favorite_recipe_check, links, store_healthy.
    rewrite Hu, Hr, Tu, Tr. simpl. crush_run.
    intros Hone Hok.
    store_cases v; simpl in *.
    + destruct (List.filter _ (favorites v)) as [|x [|y l]]; try discriminate.
      reflexivity.
    + discriminate.
    + destruct (List.filter _ (favorites v)) as [|x [|y l]]; try discriminate.
      reflexivity.
  - subst check. generalize second.2 as v. clear first second. intros v.
    unfold favorite_recipe_check, links.
    rewrite Hu, Hr, Tu, Tr. simpl. crush_run.
    intros Hmany.
    store_cases v; simpl in *.
    + destruct (List.filter _ (favorites v)) as [|x [|y l]]; simpl in *;
        [lia | lia | reflexivity].
    + reflexivity.
    + destruct (List.filter _ (favorites v)) as [|x [|y l]]; simpl in *;
        [lia | lia | reflexivity].
Qed.

Lemma favorite_twice_adds_a_row_per_accepted_insert_witness :
  let first := run (favorite_recipe (link "ann" "r1")) w_empty in
  let second := run (favorite_recipe (link "ann" "r1")) first.2 in
  let check := run (favorite_recipe_check (link "ann" "r1")) second.2 in
  length (links (JStr "ann") (JStr "r1") second.2) = 2
  /\ check.1 = Some (Response 500 (Error "Failed to check favorite status.")).
Proof.
  destruct (favorite_twice_adds_a_row_per_accepted_insert
              (link "ann" "r1") (JStr "ann") (JStr "r1") w_empty)
    as (Hcount & _ & Hmany);
    [vm_compute; reflexivity | vm_compute; reflexivity
    | reflexivity | reflexivity |].
  split.
  - rewrite Hcount. vm_compute. reflexivity.
  - apply Hmany. rewrite Hcount. vm_compute. lia.
Defined.

(** C3 as stated fails: from the empty store, two favorite calls for the
    same pair leave two relation rows, and the check that follows does not
    answer [true]. *)
Lemma favorite_twice_counterexample :
  ~ (forall (req_body : row) (user_id recipe_id : json) (w : world),
       req_body !! "user_id" = Some user_id ->
       req_body !! "recipe_id" = Some recipe_id ->
       truthy (Some user_id) = true ->
       truthy (Some recipe_id) = true ->
       length (links user_id recipe_id w) <= 1 ->
       let first := run (favorite_recipe req_body) w in
       let second := run (favorite_recipe req_body) first.2 in
       let check := run (favorite_recipe_check req_body) second.2 in
       check.1 = Some (Response 200 (IsFavorited true))
       /\ length (links user_id recipe_id second.2) <= 1).
Proof.
  intros claim.
  specialize (claim (link "ann" "r1") (JStr "ann") (JStr "r1") w_empty).
  destruct claim as [Hcheck _];
    [vm_compute; reflexivity | vm_compute; reflexivity
    | reflexivity | reflexivity | vm_compute; lia |].
  vm_compute in Hcheck. discriminate Hcheck.
Qed.

(* ===================================================================== *)
(** ** Deleting a recipe                                                  *)
(* ===================================================================== *)

(** C4.  Whenever delete-recipe answers with success, or has removed any
    recipe row at all, the relation rows that refer to the recipe are gone:
    the favorites are exactly the earlier rows that do not refer to it. *)
Theorem delete_recipe_clears_relations_first
    (req_body : row) (w w' : world) (res : option response) :
  run (delete_recipe req_body) w = (res, w') ->
  (exists b, res = Some (Response 200 b)) \/ recipes w' <> recipes w ->
  referring (or_null (req_body !! "id")) w' = []
  /\ favorites w'
     = List.filter (fun r => negb (Store.eq "recipe_id"
                                     (or_null (req_body !! "id")) r))
         (favorites w).
Proof.
  unfold delete_recipe, referring.
  destruct (truthy (req_body !! "id")); simpl.
  - intros Hrun Hcase. crush_run.
    store_cases w; simpl in Hrun.
    + (* no fault pending *)
      injection Hrun as <- <-. simpl.
      split; [apply filter_negb_filter | reflexivity].
    + (* the first call fails: nothing was removed *)
      injection Hrun as <- <-. simpl in Hcase.
      destruct Hcase as [[b Hb]|Hne]; [discriminate | congruence].
    + (* the first call succeeds *)
      destruct faults as [|[msg|] fs']; simpl in Hrun;
        injection Hrun as <- <-; simpl;
        (split; [apply filter_negb_filter | reflexivity]).
  - intros Hrun Hcase. crush_run.
    injection Hrun as <- <-.
    destruct Hcase as [[b Hb]|Hne]; [discriminate | congruence].
Qed.

Lemma delete_recipe_clears_relations_first_witness :
  referring (JStr "r1") (run (delete_recipe {["id" := JStr "r1"]}) w_two_fans).2 = []
  /\ favorites (run (delete_recipe {["id" := JStr "r1"]}) w_two_fans).2
     = [link "cy" "r2"].
Proof.
  destruct (delete_recipe_clears_relations_first
              {["id" := JStr "r1"]} w_two_fans
              (run (delete_recipe {["id" := JStr "r1"]}) w_two_fans).2
              (run (delete_recipe {["id" := JStr "r1"]}) w_two_fans).1)
    as [H1 H2].
  - vm_compute. reflexivity.
  - left. vm_compute. eexists. reflexivity.
  - split; [exact H1 | rewrite H2; vm_compute; reflexivity].
Defined.




(* ===================================================================== *)
(** ** Missing input                                                      *)
(* ===================================================================== *)

(** Three of the AI handlers check their input first: without it they answer
    400 and the world, its log of model calls included, is untouched. *)
Lemma ask_ai_chef_requires_input (req_body : row) (w : world) :
  truthy (req_body !! "question") = false
  \/ truthy (req_body !! "recipe") = false ->
  run (ask_ai_chef req_body) w
  = (Some (Response 400 (Error "Question and recipe are required.")), w).
Proof.
  intros H. unfold ask_ai_chef.
  destruct H as [-> | ->]; [reflexivity|].
  rewrite orb_true_r. reflexivity.
Qed.

Lemma inspire_recipes_requires_prompt (req_body : row) (w : world) :
  truthy (req_body !! "prompt") = false ->
  run (inspire_recipes req_body) w
  = (Some (Response 400 (Error "Prompt is required.")), w).
Proof. intros H. unfold inspire_recipes. rewrite H. reflexivity. Qed.

Lemma analyze_inline_requires_image (req_body : row) (w : world) :
  truthy (req_body !! "image") = false ->
  run (analyze_recipe_image_inline req_body) w
  = (Some (Response 400 (Error "Image data is required.")), w).
Proof. intros H. unfold analyze_recipe_image_inline. rewrite H. reflexivity. Qed.

(** C5, where the code departs from it.  The upload version of image
    extraction has no such check: a request without a file makes no model
    call, but it is answered 500 with the message of a failed analysis, not
    400. *)
Theorem analyze_upload_without_file (w : world) :
  run (analyze_recipe_image_upload None) w
  = (Some (Response 500 (Error "Failed to analyze image.")), w).
Proof. reflexivity. Qed.

(* ===================================================================== *)
(** ** Listing with a search term and tags                                *)
(* ===================================================================== *)


















(** What the two listings return. *)
Lemma api_recipes_rows
    (query : gmap string qvalue) (rows : list (option row)) (w w' : world) :
  run (api_recipes query) w = (Some (Response 200 (RecipeList rows)), w') ->
  forall x, In x rows ->
    exists r : row, x = Some r /\ In r (recipes w)
      /\ r !! "user_id" = Some (JStr (qtext (query !! "user_id")))
      /\ (qtruthy (query !! "search") = true ->
          ilike "title" ("%" +:+ qtext (query !! "search") +:+ "%") r = true)
      /\ (qtruthy (query !! "tag") = true ->
          exists tags has_tag,
            tags_of (query !! "tag") = Some tags
            /\ overlaps "tag" (List.map qdisplay tags) = inr has_tag
            /\ has_tag r = true).
Proof.
  unfold api_recipes.
  destruct (qtruthy (query !! "user_id")); simpl; [|discriminate].
  assert (Hrows : forall (has_tag : row -> bool) x,
    In x (List.map Some (List.filter
      (fun r : row =>
         Store.eq "user_id" (JStr (qtext (query !! "user_id"))) r
         && (if qtruthy (query !! "search")
             then ilike "title" ("%" +:+ qtext (query !! "search") +:+ "%") r
             else true)
         && has_tag r)
      (recipes w))) ->
    exists r : row, x = Some r /\ In r (recipes w)
      /\ r !! "user_id" = Some (JStr (qtext (query !! "user_id")))
      /\ (qtruthy (query !! "search") = true ->
          ilike "title" ("%" +:+ qtext (query !! "search") +:+ "%") r = true)
      /\ has_tag r = true).
  { intros has_tag x Hx. apply List.in_map_iff in Hx as (r & <- & Hr).
    apply List.filter_In in Hr as [Hin Hp].
    apply andb_prop in Hp as [Hp Htag]. apply andb_prop in Hp as [Hown Htitle].
    exists r. split; [reflexivity|]. split; [exact Hin|].
    split; [apply store_eq_spec, Hown|].
    split; [intros Hq; rewrite Hq in *; assumption | exact Htag]. }
  destruct (qtruthy (query !! "tag")) eqn:Ht.
  - destruct (tags_of (query !! "tag")) as [tags|] eqn:Etags;
      [|crush_run; intros H; discriminate H].
    destruct (overlaps "tag" (List.map qdisplay tags)) as [message|has_tag]
      eqn:Eov; crush_run.
    + unfold db_refuse.
      destruct (store_faults w) as [|[msg|] rest]; simpl;
        intros H; discriminate H.
    + store_cases w; simpl; intros H; try discriminate H;
        injection H as <- _; intros x Hx;
        destruct (Hrows has_tag x Hx) as (r & H1 & H2 & H3 & H4 & H5);
        exists r; repeat (split; [assumption|]); intros _; eauto.
  - crush_run.
    store_cases w; simpl; intros H; try discriminate H;
      injection H as <- _; intros x Hx;
      destruct (Hrows (fun _ => true) x Hx) as (r & H1 & H2 & H3 & H4 & H5);
      exists r; repeat (split; [assumption|]); intros H; discriminate H.
Qed.




(** C6, where the code departs from it.  The recipes listing hands the
    search term to the store as a pattern: the underscore of the term "a_c"
    stands for any character, and the recipe titled "abc", which does not
    contain "a_c", is returned. *)
Theorem api_recipes_search_is_a_pattern :
  (run (api_recipes search_a_c) w_abc).1
  = Some (Response 200 (RecipeList [Some abc_row]))
  /\ Text.includes (Text.toLowerCase "abc") (Text.toLowerCase "a_c") = false.
Proof. split; vm_compute; reflexivity. Qed.

(* ===================================================================== *)
(** ** Updating a recipe                                                  *)
(* ===================================================================== *)

Lemma Forall2_map_diag {A : Type} (Q : A -> A -> Prop) (f : A -> A) (l : list A) :
  (forall x, Q x (f x)) -> Forall2 Q l (List.map f l).
Proof. intros H. induction l; simpl; constructor; auto. Qed.

Lemma Forall2_diag {A : Type} (Q : A -> A -> Prop) (l : list A) :
  (forall x, Q x x) -> Forall2 Q l l.
Proof. intros H. induction l; constructor; auto. Qed.

(** The row written by an update leaves [id] alone, holds the supplied value
    in every supplied column and the old value in every other one. *)
Lemma merged_row_lookup (req_body r : row) (k : string) :
  (delete "id" req_body ∪ r) !! k
  = if decide (k = "id") then r !! k
    else match req_body !! k with
         | Some v => Some v
         | None => r !! k
         end.
Proof.
  destruct (decide (k = "id")) as [->|Hk].
  - apply lookup_union_r. apply lookup_delete_eq.
  - destruct (req_body !! k) as [v|] eqn:E.
    + apply lookup_union_Some_l. rewrite lookup_delete_ne by congruence. exact E.
    + rewrite lookup_union_r; [reflexivity|].
      rewrite lookup_delete_ne by congruence. exact E.
Qed.

(** C7.  update-recipe is a partial merge.  It never touches the favorites;
    every stored recipe keeps its [id], and each of its columns either keeps
    its value or takes the value the caller supplied for that column; when
    the handler answers with success, the rows with the given id hold every
    supplied value and all other rows are as before. *)
Theorem update_recipe_partial_merge
    (req_body : row) (w w' : world) (res : option response) :
  run (update_recipe req_body) w = (res, w') ->
  favorites w' = favorites w
  /\ Forall2 (fun r r' : row =>
       r' !! "id" = r !! "id"
       /\ forall k, r' !! k = r !! k
                    \/ (k <> "id" /\ is_Some (req_body !! k)
                        /\ r' !! k = req_body !! k))
       (recipes w) (recipes w')
  /\ ((exists b, res = Some (Response 200 b)) ->
      Forall2 (fun r r' : row =>
        if Store.eq "id" (or_null (req_body !! "id")) r
        then forall k, k <> "id" -> is_Some (req_body !! k) ->
                       r' !! k = req_body !! k
        else r' = r)
        (recipes w) (recipes w')).
Proof.
  set (id := or_null (req_body !! "id")).
  set (write := fun r : row =>
         if Store.eq "id" id r then delete "id" req_body ∪ r else r).
  assert (Hframe : forall r : row,
    write r !! "id" = r !! "id"
    /\ forall k, write r !! k = r !! k
                 \/ (k <> "id" /\ is_Some (req_body !! k)
                     /\ write r !! k = req_body !! k)).
  { intros r. unfold write. destruct (Store.eq "id" id r); [|auto].
    split.
    - rewrite merged_row_lookup. rewrite decide_True by reflexivity. reflexivity.
    - intros k. rewrite merged_row_lookup.
      destruct (decide (k = "id")); [auto|].
      destruct (req_body !! k) eqn:E; [right | left]; eauto. }
  assert (Hwritten : forall r : row,
    if Store.eq "id" id r
    then forall k, k <> "id" -> is_Some (req_body !! k) ->
                   write r !! k = req_body !! k
    else write r = r).
  { intros r. unfold write. destruct (Store.eq "id" id r); [|reflexivity].
    intros k Hk [v Hv]. rewrite merged_row_lookup.
    rewrite decide_False by exact Hk. rewrite Hv. reflexivity. }
  assert (Hsame : Forall2 (fun r r' : row =>
       r' !! "id" = r !! "id"
       /\ forall k, r' !! k = r !! k
                    \/ (k <> "id" /\ is_Some (req_body !! k)
                        /\ r' !! k = req_body !! k))
       (recipes w) (recipes w)).
  { apply Forall2_diag. auto. }
  unfold update_recipe. fold id.
  destruct (truthy (req_body !! "id")); simpl; crush_run.
  - store_cases w; simpl; intros Hrun; injection Hrun as <- <-; simpl;
      fold write.
    + split; [reflexivity|]. split.
      * apply Forall2_map_diag, Hframe.
      * intros _. apply Forall2_map_diag, Hwritten.
    + split; [reflexivity|]. split; [exact Hsame|].
      intros [b Hb]. discriminate Hb.
    + split; [reflexivity|]. split.
      * apply Forall2_map_diag, Hframe.
      * intros _. apply Forall2_map_diag, Hwritten.
  - intros Hrun; injection Hrun as <- <-.
    split; [reflexivity|]. split; [exact Hsame|].
    intros [b Hb]. discriminate Hb.
Qed.

Lemma update_recipe_partial_merge_witness :
  recipes (run (update_recipe retitle_r1) w_two_fans).2
  = [ <["title" := JStr "French Toast"]> r1_row ]
  /\ favorites (run (update_recipe retitle_r1) w_two_fans).2
     = favorites w_two_fans.
Proof.
  destruct (update_recipe_partial_merge retitle_r1 w_two_fans
              (run (update_recipe retitle_r1) w_two_fans).2
              (run (update_recipe retitle_r1) w_two_fans).1)
    as (Hfav & _ & _).
  - vm_compute. reflexivity.
  - split; [vm_compute; reflexivity | exact Hfav].
Defined.

(* ===================================================================== *)
(** ** Who owns a recipe                                                  *)
(* ===================================================================== *)

Create HintDb frame.

Section frame_rules.
Context {A B : Type}.

Lemma keeps_ret (a : A) : keeps_recipes (ret a).
Proof. intros w. reflexivity. Qed.

Lemma keeps_throw (e : exn) : keeps_recipes (@throw A e).
Proof. intros w. reflexivity. Qed.



Lemma keeps_store_call (f : world -> A * world) :
  (forall w, recipes (f w).2 = recipes w) -> keeps_recipes (store_call f).
Proof.
  intros Hf w. unfold store_call.
  destruct (store_faults w) as [|[msg|] rest]; simpl.
  - specialize (Hf w). destruct (f w). exact Hf.
  - reflexivity.
  - specialize (Hf (set_store_faults rest w)).
    destruct (f (set_store_faults rest w)). exact Hf.
Qed.
End frame_rules.

Lemma keeps_send code b : keeps_recipes (send code b).
Proof. apply keeps_ret. Qed.

Lemma keeps_call_model rq : keeps_recipes (call_model rq).
Proof.
  intros w. unfold call_model.
  destruct (completions w) as [|[|r] rest]; reflexivity.
Qed.

Lemma keeps_message_content r : keeps_recipes (message_content r).
Proof. destruct r; [apply keeps_throw | apply keeps_ret]. Qed.

Lemma keeps_readFileSync path : keeps_recipes (readFileSync path).
Proof. intros w. unfold readFileSync. destruct (uploads w !! path); reflexivity. Qed.

Lemma keeps_unlinkSync path : keeps_recipes (unlinkSync path).
Proof. intros w. unfold unlinkSync. destruct (uploads w !! path); reflexivity. Qed.

Lemma keeps_db_select t p : keeps_recipes (db_select t p).
Proof. apply keeps_store_call. reflexivity. Qed.

Lemma keeps_db_refuse {A} message : keeps_recipes (@db_refuse A message).
Proof.
  intros w. unfold db_refuse.
  destruct (store_faults w) as [|[msg|] rest]; reflexivity.
Qed.

Lemma keeps_favorites_insert rs : keeps_recipes (db_insert Favorites rs).
Proof.
  apply keeps_store_call. intros w.
  destruct (assign_ids (next_id w) rs). reflexivity.
Qed.

Lemma keeps_favorites_delete p : keeps_recipes (db_delete Favorites p).
Proof. apply keeps_store_call. reflexivity. Qed.


#[local] Hint Resolve keeps_ret keeps_throw keeps_send keeps_call_model
  keeps_message_content keeps_readFileSync keeps_unlinkSync keeps_db_select
  keeps_db_refuse keeps_favorites_insert keeps_favorites_delete : frame.


















(* ===================================================================== *)
(** ** The uploaded file                                                  *)
(* ===================================================================== *)

(** The upload version of image extraction removes the file it was given on
    the way to its 200 answer. *)
Lemma analyze_upload_success_unlinks
    (path : string) (v : json) (w w' : world) :
  run (analyze_recipe_image_upload (Some path)) w
  = (Some (Response 200 (Extracted v)), w') ->
  uploads w' = delete path (uploads w).
Proof.
  unfold analyze_recipe_image_upload, run, try_catch, bind, readFileSync,
    call_model, unlinkSync, message_content, send, ret, throw.
  destruct (uploads w !! path) as [img|] eqn:Hfile; simpl; [|discriminate].
  destruct (completions w) as [|[|[|[text|]]] rest]; simpl; try discriminate.
  destruct (Text.match_braces text) as [found|]; simpl; [|discriminate].
  destruct (JSON_parse found) as [x|]; simpl; [|discriminate].
  rewrite Hfile. simpl. intros H. injection H as _ <-. reflexivity.
Qed.

(** C9, where the code departs from it.  On every answer other than the 200
    one (the model call threw, the completion held no JSON, the file could
    not be read) the upload directory is as it was: the file the request
    came with is still there. *)
Theorem analyze_upload_failure_keeps_file
    (path : string) (w w' : world) (res : option response) :
  run (analyze_recipe_image_upload (Some path)) w = (res, w') ->
  (forall v, res <> Some (Response 200 (Extracted v))) ->
  uploads w' = uploads w.
Proof.
  unfold analyze_recipe_image_upload, run, try_catch, bind, readFileSync,
    call_model, unlinkSync, message_content, send, ret, throw.
  destruct (uploads w !! path) as [img|] eqn:Hfile; simpl.
  - destruct (completions w) as [|[|[|[text|]]] rest]; simpl;
      try (intros H _; injection H as _ <-; reflexivity).
    destruct (Text.match_braces text) as [found|]; simpl;
      try (intros H _; injection H as _ <-; reflexivity).
    destruct (JSON_parse found) as [x|]; simpl;
      try (intros H _; injection H as _ <-; reflexivity).
    rewrite Hfile. simpl. intros H Hfail. injection H as <- _.
    exfalso. apply (Hfail x). reflexivity.
  - intros H _. injection H as _ <-. reflexivity.
Qed.

Lemma analyze_upload_failure_keeps_file_witness :
  (run (analyze_recipe_image_upload (Some "uploads/7f3a")) w_no_json).1
  = Some (Response 500 (Error "Failed to parse AI response."))
  /\ uploads (run (analyze_recipe_image_upload (Some "uploads/7f3a"))
                w_no_json).2 !! "uploads/7f3a" = Some "JPEG".
Proof.
  split; [vm_compute; reflexivity|].
  rewrite (analyze_upload_failure_keeps_file "uploads/7f3a" w_no_json
             (run (analyze_recipe_image_upload (Some "uploads/7f3a")) w_no_json).2
             (run (analyze_recipe_image_upload (Some "uploads/7f3a")) w_no_json).1).
  - vm_compute. reflexivity.
  - vm_compute. reflexivity.
  - intros v. vm_compute. discriminate.
Defined.

(* ===================================================================== *)
(** ** More on favorites: removing a link, and asking again               *)
(* ===================================================================== *)

Lemma inserted_link_matches (user_id recipe_id : json) (n : N) :
  is_link user_id recipe_id
    (with_id n (<["user_id" := user_id]> {["recipe_id" := recipe_id]})) = true.
Proof.
  unfold is_link, with_id.
  rewrite lookup_insert_ne, lookup_singleton_ne by done.
  apply andb_true_intro. split; apply store_eq_spec.
  - rewrite lookup_insert_ne by done. apply lookup_insert_eq.
  - rewrite !lookup_insert_ne by done. apply lookup_singleton_eq.
Qed.

(** X1.  DELETE /favorite-recipe, given both ids, never touches the recipes.
    When it answers 200 it has removed every relation row that links the
    pair, duplicates included, and kept all other rows in order; when the
    store refuses it answers 500 and the favorites are as they were. *)
Theorem unfavorite_removes_every_link_of_the_pair
    (req_body : row) (user_id recipe_id : json) (w w' : world)
    (res : option response) :
  req_body !! "user_id" = Some user_id ->
  req_body !! "recipe_id" = Some recipe_id ->
  truthy (Some user_id) = true ->
  truthy (Some recipe_id) = true ->
  run (unfavorite_recipe req_body) w = (res, w') ->
  recipes w' = recipes w
  /\ ((res = Some (Response 200 Unfavorited)
       /\ favorites w'
          = List.filter (fun r => negb (is_link user_id recipe_id r))
              (favorites w)
       /\ links user_id recipe_id w' = [])
      \/ (res = Some (Response 500 (Error "Failed to unfavorite recipe."))
          /\ favorites w' = favorites w)).
Proof.
  intros Hu Hr Tu Tr. unfold unfavorite_recipe, links.
  rewrite Hu, Hr, Tu, Tr. simpl. crush_run.
  store_cases w; simpl; intros [= <- <-]; simpl;
    (split; [reflexivity|]);
    first [ right; split; reflexivity
          | left; split; [reflexivity|]; split; [reflexivity|];
            apply (filter_negb_filter (is_link user_id recipe_id)) ].
Qed.

Lemma unfavorite_removes_every_link_of_the_pair_witness :
  favorites (run (unfavorite_recipe (link "bob" "r1")) w_two_fans).2
  = [link "cy" "r2"; link "dee" "r1"].
Proof.
  destruct (unfavorite_removes_every_link_of_the_pair
              (link "bob" "r1") (JStr "bob") (JStr "r1") w_two_fans
              (run (unfavorite_recipe (link "bob" "r1")) w_two_fans).2
              (run (unfavorite_recipe (link "bob" "r1")) w_two_fans).1)
    as [_ [(_ & Hfav & _) | (Hres & _)]];
    [vm_compute; reflexivity | vm_compute; reflexivity | reflexivity
    | reflexivity | vm_compute; reflexivity | |].
  - rewrite Hfav. vm_compute. reflexivity.
  - vm_compute in Hres. discriminate Hres.
Defined.

(** X2.  With a store that answers, removing a link twice is the same as
    removing it once (the second call answers 200 and changes nothing), and
    the check that follows answers [false], not an error. *)
Theorem unfavorite_twice_then_check
    (req_body : row) (user_id recipe_id : json) (w : world) :
  req_body !! "user_id" = Some user_id ->
  req_body !! "recipe_id" = Some recipe_id ->
  truthy (Some user_id) = true ->
  truthy (Some recipe_id) = true ->
  store_healthy 3 w = true ->
  let first := run (unfavorite_recipe req_body) w in
  let second := run (unfavorite_recipe req_body) first.2 in
  let check := run (favorite_recipe_check req_body) second.2 in
  first.1 = Some (Response 200 Unfavorited)
  /\ second.1 = Some (Response 200 Unfavorited)
  /\ favorites second.2 = favorites first.2
  /\ check.1 = Some (Response 200 (IsFavorited false)).
Proof.
  intros Hu Hr Tu Tr Hok. unfold unfavorite_recipe, favorite_recipe_check.
  rewrite Hu, Hr, Tu, Tr. simpl. unfold store_healthy in Hok. crush_run.
  pose proof (filter_negb_filter
                (fun r => Store.eq "user_id" user_id r
                          && Store.eq "recipe_id" recipe_id r)
                (favorites w)) as Hgone.
  pose proof (filter_negb_id _ _ Hgone) as Hsame.
  destruct (store_faults w) as [|[m1|] [|[m2|] [|[m3|] fs]]]; simpl in *;
    try discriminate Hok;
    rewrite ?Hsame, ?Hgone; simpl; rewrite ?Hgone; auto.
Qed.

Lemma unfavorite_twice_then_check_witness :
  (run (favorite_recipe_check (link "bob" "r1"))
     (run (unfavorite_recipe (link "bob" "r1"))
        (run (unfavorite_recipe (link "bob" "r1")) w_two_fans).2).2).1
  = Some (Response 200 (IsFavorited false)).
Proof.
  apply (unfavorite_twice_then_check (link "bob" "r1") (JStr "bob") (JStr "r1")
           w_two_fans);
    vm_compute; reflexivity.
Defined.

(** X3.  Favorite then unfavorite is a round trip: when no row linked the
    pair and the store answers both calls, the favorites and the recipes are
    back to what they were; only the identifier counter has moved. *)
Theorem favorite_then_unfavorite_restores
    (req_body : row) (user_id recipe_id : json) (w : world) :
  req_body !! "user_id" = Some user_id ->
  req_body !! "recipe_id" = Some recipe_id ->
  truthy (Some user_id) = true ->
  truthy (Some recipe_id) = true ->
  links user_id recipe_id w = [] ->
  store_healthy 2 w = true ->
  let added := run (favorite_recipe req_body) w in
  let removed := run (unfavorite_recipe req_body) added.2 in
  added.1 = Some (Response 200 (Success None))
  /\ length (links user_id recipe_id added.2) = 1
  /\ removed.1 = Some (Response 200 Unfavorited)
  /\ favorites removed.2 = favorites w
  /\ recipes removed.2 = recipes w.
Proof.
  intros Hu Hr Tu Tr Hnone Hok.
  unfold favorite_recipe, unfavorite_recipe, links in *.
  rewrite Hu, Hr, Tu, Tr. simpl. unfold store_healthy in Hok. crush_run.
  rewrite lookup_insert_ne, lookup_singleton_ne by done.
  pose proof (inserted_link_matches user_id recipe_id (next_id w)) as Hnew.
  unfold is_link in Hnew.
  pose proof (filter_negb_id _ _ Hnone) as Hsame.
  destruct (store_faults w) as [|[m1|] [|[m2|] fs]]; simpl in *;
    try discriminate Hok;
    rewrite !List.filter_app; simpl; rewrite Hnew, Hnone, Hsame; simpl;
    rewrite ?app_nil_r; auto.
Qed.

Lemma favorite_then_unfavorite_restores_witness :
  favorites (run (unfavorite_recipe (link "eve" "r1"))
               (run (favorite_recipe (link "eve" "r1")) w_two_fans).2).2
  = favorites w_two_fans.
Proof.
  apply (favorite_then_unfavorite_restores (link "eve" "r1")
           (JStr "eve") (JStr "r1") w_two_fans);
    vm_compute; reflexivity.
Defined.

(** X4.  POST /favorite-recipe, when the store accepts the insert, appends
    one row that holds the two ids given and an identifier from the store;
    every row that was there stays, in place, so the links of every other
    pair are what they were. *)
Theorem favorite_appends_one_row
    (req_body : row) (user_id recipe_id : json) (w w' : world) (b : reply) :
  req_body !! "user_id" = Some user_id ->
  req_body !! "recipe_id" = Some recipe_id ->
  run (favorite_recipe req_body) w = (Some (Response 200 b), w') ->
  exists new : row,
    favorites w' = (favorites w ++ [new])%list
    /\ new !! "user_id" = Some user_id
    /\ new !! "recipe_id" = Some recipe_id
    /\ new !! "id" = Some (JNum (pretty (next_id w)))
    /\ recipes w' = recipes w
    /\ forall u r, is_link u r new = false ->
         links u r w' = links u r w.
Proof.
  intros Hu Hr. unfold favorite_recipe, links. rewrite Hu, Hr.
  destruct (truthy (Some user_id)); destruct (truthy (Some recipe_id));
    cbn [negb orb]; crush_run; try (intros H; discriminate H).
  rewrite lookup_insert_ne, lookup_singleton_ne by done.
  set (new := with_id (next_id w)
                (<["user_id" := user_id]> {["recipe_id" := recipe_id]})).
  assert (Hnew : new !! "user_id" = Some user_id
                 /\ new !! "recipe_id" = Some recipe_id
                 /\ new !! "id" = Some (JNum (pretty (next_id w)))).
  { unfold new, with_id.
    rewrite lookup_insert_ne, lookup_singleton_ne by done.
    split; [|split].
    - rewrite lookup_insert_ne by done. apply lookup_insert_eq.
    - rewrite !lookup_insert_ne by done. apply lookup_singleton_eq.
    - apply lookup_insert_eq. }
  destruct Hnew as (H1 & H2 & H3).
  store_cases w; simpl; intros [= _ <-]; simpl;
    exists new; (repeat (split; [first [reflexivity | assumption]|]));
    intros u r Hno; rewrite List.filter_app; simpl;
    unfold is_link in Hno; rewrite Hno; apply app_nil_r.
Qed.

Lemma favorite_appends_one_row_witness :
  exists new : row,
    favorites (run (favorite_recipe (link "eve" "r1")) w_two_fans).2
    = (favorites w_two_fans ++ [new])%list
    /\ new !! "user_id" = Some (JStr "eve").
Proof.
  destruct (favorite_appends_one_row (link "eve" "r1") (JStr "eve") (JStr "r1")
              w_two_fans (run (favorite_recipe (link "eve" "r1")) w_two_fans).2
              (Success None))
    as (new & Hfav & Hu & _);
    [vm_compute; reflexivity | vm_compute; reflexivity
    | vm_compute; reflexivity |].
  exists new. split; assumption.
Defined.

(* ===================================================================== *)
(** ** What each kind of request leaves alone                             *)
(* ===================================================================== *)

Section keeps_rules.
Context {X : Type} (obs : world -> X).

Lemma keeps_ret_any {A} (a : A) : keeps obs (ret a).
Proof. intros w. reflexivity. Qed.

Lemma keeps_throw_any {A} (e : exn) : keeps obs (@throw A e).
Proof. intros w. reflexivity. Qed.

Lemma keeps_bind_any {A B} (m : M A) (k : A -> M B) :
  keeps obs m -> (forall a, keeps obs (k a)) -> keeps obs (bind m k).
Proof.
  intros Hm Hk w. unfold bind. specialize (Hm w).
  destruct (m w) as [[a|e] w1]; simpl in *; [rewrite Hk|]; exact Hm.
Qed.

Lemma keeps_try_catch_any {A} (m : M A) (h : exn -> M A) :
  keeps obs m -> (forall e, keeps obs (h e)) -> keeps obs (try_catch m h).
Proof.
  intros Hm Hh w. unfold try_catch. specialize (Hm w).
  destruct (m w) as [[a|e] w1]; simpl in *; [|rewrite Hh]; exact Hm.
Qed.

Lemma keeps_filterM_any {A} (p : A -> M bool) (l : list A) :
  (forall x, keeps obs (p x)) -> keeps obs (filterM p l).
Proof.
  intros Hp. induction l as [|x l IH]; simpl.
  - apply keeps_ret_any.
  - apply keeps_bind_any; [apply Hp | intros b].
    apply keeps_bind_any; [exact IH | intros rest; apply keeps_ret_any].
Qed.

Lemma keeps_run (h : M response) (w : world) :
  keeps obs h -> obs (run h w).2 = obs w.
Proof.
  intros Hh. unfold run. specialize (Hh w).
  destruct (h w) as [[r|e] w1]; exact Hh.
Qed.
End keeps_rules.

(** A primitive step keeps an observation when no case of it writes the
    observed field. *)
Ltac keeps_step :=
  let w := fresh "w" in
  intros w;
  unfold call_model, message_content, readFileSync, unlinkSync,
    db_select, db_insert, db_delete, db_update, db_refuse, store_call, send,
    ret, throw, relations;
  repeat match goal with
         | |- context [match ?x with _ => _ end] => destruct x
         end;
  reflexivity.

Lemma insert_keeps_model_calls (t : table) (rs : list row) :
  keeps model_calls (db_insert t rs).
Proof.
  intros w. unfold db_insert, store_call.
  destruct (store_faults w) as [|[msg|] rest]; simpl;
    destruct (assign_ids (next_id w) rs); destruct t; reflexivity.
Qed.

Ltac keeps_all :=
  repeat first
    [ progress intros
    | apply keeps_bind_any
    | apply keeps_try_catch_any
    | apply keeps_filterM_any
    | apply keeps_ret_any
    | apply keeps_throw_any
    | match goal with
      | |- keeps _ (if ?c then _ else _) => destruct c
      | |- keeps _ (match ?x with _ => _ end) => destruct x
      end
    | solve [keeps_step]
    | apply insert_keeps_model_calls ].

(** Handlers that only read the store, or do not use it. *)
Lemma readers_keep_relations (rq : request) :
  is_mutation rq = false -> keeps relations (handler rq).
Proof.
  destruct rq; simpl; try discriminate; intros _;
    unfold ask_ai_chef, chef_prompt, api_recipes, favorite_recipe_check,
      inspire_recipes, api_favorite_recipes, title_matches, tag_matches,
      analyze_recipe_image_upload, analyze_recipe_image_inline;
    keeps_all.
Qed.

(** X5.  A request that is not one of the five writing ones (favorite,
    unfavorite, save, update, delete) leaves the recipes, the favorites and
    the identifier counter exactly as they were, whatever it answers. *)
Theorem reading_requests_leave_the_store (rq : request) (w : world) :
  is_mutation rq = false ->
  recipes (serve rq w) = recipes w
  /\ favorites (serve rq w) = favorites w
  /\ next_id (serve rq w) = next_id w.
Proof.
  intros Hrq. unfold serve.
  pose proof (keeps_run relations (handler rq) w
                (readers_keep_relations rq Hrq)) as H.
  unfold relations in H. injection H as H1 H2 H3. auto.
Qed.

Lemma reading_requests_leave_the_store_witness :
  recipes (serve (ApiFavoriteRecipes search_a_c) w_two_fans) = recipes w_two_fans
  /\ favorites (serve (ApiFavoriteRecipes search_a_c) w_two_fans)
     = favorites w_two_fans
  /\ next_id (serve (ApiFavoriteRecipes search_a_c) w_two_fans)
     = next_id w_two_fans.
Proof.
  apply (reading_requests_leave_the_store (ApiFavoriteRecipes search_a_c)
           w_two_fans).
  reflexivity.
Defined.

Lemma store_handlers_keep_model_calls (rq : request) :
  is_ai rq = false -> keeps model_calls (handler rq).
Proof.
  destruct rq; simpl; try discriminate; intros _;
    unfold api_recipes, favorite_recipe, unfavorite_recipe,
      favorite_recipe_check, save_recipe, api_favorite_recipes,
      title_matches, tag_matches, update_recipe, delete_recipe;
    keeps_all.
Qed.

Lemma ai_handlers_keep_store_faults (rq : request) :
  is_ai rq = true -> keeps store_faults (handler rq).
Proof.
  destruct rq; simpl; try discriminate; intros _;
    unfold ask_ai_chef, chef_prompt, inspire_recipes,
      analyze_recipe_image_upload, analyze_recipe_image_inline;
    keeps_all.
Qed.

Lemma call_model_logs_one (rq : model_request) (w : world) :
  model_calls (call_model rq w).2 = (model_calls w ++ [rq])%list.
Proof.
  unfold call_model. destruct (completions w) as [|[|r] rest]; reflexivity.
Qed.

(** Closes the side conditions on the calls made by one request. *)
Ltac no_call :=
  simpl; repeat split;
  first [ reflexivity | lia
        | let H := fresh in intros [H|H]; discriminate H ].

(** X6.  Only the four AI requests reach the generative model, and one
    request makes at most one call: the log of calls after a request is the
    log before it, followed by at most one call, and by none when the
    request is not an AI one or lacks its input.  An AI request makes no
    store call. *)
Theorem at_most_one_model_call (rq : request) (w : world) :
  exists made,
    model_calls (serve rq w) = (model_calls w ++ made)%list
    /\ length made <= 1
    /\ (is_ai rq = false \/ missing_input rq = true -> made = [])
    /\ (is_ai rq = true -> store_faults (serve rq w) = store_faults w).
Proof.
  assert (Hcalls : exists made,
    model_calls (serve rq w) = (model_calls w ++ made)%list
    /\ length made <= 1
    /\ (is_ai rq = false \/ missing_input rq = true -> made = [])).
  { destruct (is_ai rq) eqn:Hai.
    - destruct rq as [b| |  | | | |b| | |f|b| ]; try discriminate Hai;
        unfold serve, run; simpl handler; simpl missing_input.
      + (* ask-ai-chef *)
        unfold ask_ai_chef.
        destruct (negb (truthy (b !! "question"))
                  || negb (truthy (b !! "recipe")));
          [exists []; rewrite app_nil_r; simpl; auto with lia|].
        unfold chef_prompt, bind, try_catch.
        destruct (Json.get "ingredients" (or_null (b !! "recipe")))
          as [[| | | |ings|]|];
          try (exists []; rewrite app_nil_r; simpl; no_call).
        destruct (Json.get "instructions" (or_null (b !! "recipe")))
          as [[| | | |steps|]|];
          try (exists []; rewrite app_nil_r; simpl; no_call).
        unfold ret at 1.
        match goal with
        | |- context [call_model ?r w] =>
            pose proof (call_model_logs_one r w) as Hlog;
            destruct (call_model r w) as [[[|[text|]]|e] w1]
        end; simpl in *; eexists; (split; [exact Hlog|]); no_call.
      + (* inspire-recipes *)
        unfold inspire_recipes.
        destruct (negb (truthy (b !! "prompt")));
          [exists []; rewrite app_nil_r; simpl; auto with lia|].
        unfold bind, try_catch.
        match goal with
        | |- context [call_model ?r w] =>
            pose proof (call_model_logs_one r w) as Hlog;
            destruct (call_model r w) as [[[|[text|]]|e] w1]
        end; simpl in *;
          try destruct (JSON_parse (Text.trim text));
          simpl; eexists; (split; [exact Hlog|]); no_call.
      + (* analyze-recipe-image, upload *)
        unfold analyze_recipe_image_upload.
        destruct f as [path|];
          [|exists []; rewrite app_nil_r; simpl; no_call].
        unfold bind, try_catch, readFileSync.
        destruct (uploads w !! path) as [img|];
          [|exists []; rewrite app_nil_r; simpl; no_call].
        match goal with
        | |- context [call_model ?r w] =>
            pose proof (call_model_logs_one r w) as Hlog;
            destruct (call_model r w) as [[[|[text|]]|e] w1]
        end; simpl in *;
          try (destruct (Text.match_braces text) as [found|]; simpl;
               [destruct (JSON_parse found); simpl|]);
          unfold unlinkSync; try destruct (uploads w1 !! path); simpl;
          eexists; (split; [exact Hlog|]); no_call.
      + (* analyze-recipe-image, inline *)
        unfold analyze_recipe_image_inline.
        destruct (negb (truthy (b !! "image")));
          [exists []; rewrite app_nil_r; simpl; auto with lia|].
        destruct (or_null (b !! "image")) as [| | |data| |];
          try (exists []; rewrite app_nil_r; simpl; no_call).
        unfold bind, try_catch.
        match goal with
        | |- context [call_model ?r w] =>
            pose proof (call_model_logs_one r w) as Hlog;
            destruct (call_model r w) as [[[|[text|]]|e] w1]
        end; simpl in *;
          try destruct (JSON_parse text);
          simpl; eexists; (split; [exact Hlog|]); no_call.
    - exists []. rewrite app_nil_r. unfold serve.
      rewrite (keeps_run model_calls (handler rq) w
                 (store_handlers_keep_model_calls rq Hai)).
      auto with lia. }
  destruct Hcalls as (made & H1 & H2 & H3).
  exists made. repeat split; try assumption.
  intros Hai. unfold serve. apply keeps_run, ai_handlers_keep_store_faults, Hai.
Qed.

(* ===================================================================== *)
(** ** Saving, listing, updating and deleting recipes                     *)
(* ===================================================================== *)

Lemma with_id_lookup (n : N) (r : row) (k : string) :
  k <> "id" -> with_id n r !! k = r !! k.
Proof.
  intros Hk. unfold with_id. destruct (r !! "id"); [reflexivity|].
  apply lookup_insert_ne. congruence.
Qed.

Lemma with_id_has_id (n : N) (r : row) : is_Some (with_id n r !! "id").
Proof.
  unfold with_id. destruct (r !! "id") eqn:E; [rewrite E; eauto|].
  rewrite lookup_insert_eq. eauto.
Qed.

Lemma save_recipe_run
    (req_body : row) (members : list (string * json)) (w w' : world)
    (b : reply) :
  req_body !! "recipe" = Some (JObj members) ->
  run (save_recipe req_body) w = (Some (Response 200 b), w') ->
  b = Success (Some [with_id (next_id w) (list_to_map members)])
  /\ recipes w'
     = (recipes w ++ [with_id (next_id w) (list_to_map members)])%list
  /\ favorites w' = favorites w.
Proof.
  intros Hrecipe. unfold save_recipe. rewrite Hrecipe.
  destruct (negb (truthy (Some (JObj members)))
            || negb (truthy (Json.get "title" (or_null (Some (JObj members))))));
    [intros H; discriminate H|].
  cbn [or_null].
  unfold run, send, try_catch, bind, ret, throw, db_insert, store_call.
  destruct (store_faults w) as [|[msg|] rest]; simpl;
    destruct ((list_to_map members : row) !! "id") eqn:E; simpl;
    intros H; try discriminate H; injection H as <- <-; simpl;
    unfold with_id; rewrite E; auto.
Qed.

(** X7.  POST /save-recipe with a recipe object, when it answers 200, has
    appended exactly one row to the recipes and answers with that row: it
    holds every field of the recipe as given, and an [id] (the caller's, or
    one from the store when the recipe has none).  Rows already stored and
    the favorites are untouched. *)
Theorem save_recipe_appends_the_recipe
    (req_body : row) (members : list (string * json)) (w w' : world)
    (b : reply) :
  req_body !! "recipe" = Some (JObj members) ->
  run (save_recipe req_body) w = (Some (Response 200 b), w') ->
  exists saved : row,
    b = Success (Some [saved])
    /\ recipes w' = (recipes w ++ [saved])%list
    /\ favorites w' = favorites w
    /\ is_Some (saved !! "id")
    /\ (forall k, k <> "id" ->
          saved !! k = (list_to_map members : row) !! k)
    /\ (forall v, (list_to_map members : row) !! "id" = Some v ->
          saved !! "id" = Some v).
Proof.
  intros Hrecipe Hrun.
  destruct (save_recipe_run req_body members w w' b Hrecipe Hrun)
    as (Hb & Hrows & Hfav).
  exists (with_id (next_id w) (list_to_map members)).
  split; [exact Hb|]. split; [exact Hrows|]. split; [exact Hfav|].
  split; [apply with_id_has_id|].
  split; [intros k Hk; apply with_id_lookup, Hk|].
  intros v Hv. unfold with_id. rewrite Hv. exact Hv.
Qed.

Lemma save_recipe_appends_the_recipe_witness :
  exists saved : row,
    recipes (run (save_recipe {["recipe" := JObj toast_members]}) w_empty).2
    = [saved]
    /\ saved !! "title" = Some (JStr "Toast").
Proof.
  destruct (save_recipe_appends_the_recipe
              {["recipe" := JObj toast_members]} toast_members w_empty
              (run (save_recipe {["recipe" := JObj toast_members]}) w_empty).2
              (Success (Some [<["id" := JNum "1"]> (list_to_map toast_members)])))
    as (saved & _ & Hrows & _ & _ & Hfields & _);
    [vm_compute; reflexivity | vm_compute; reflexivity |].
  exists saved. split; [exact Hrows|].
  rewrite Hfields by discriminate. vm_compute. reflexivity.
Defined.

(** X8.  A saved recipe is listed.  After a save that answers 200 for a
    recipe whose [user_id] is the text [owner], the recipes listing of
    [owner] (no search term, no tags, a store that answers) returns the
    owner's earlier recipes in store order followed by the saved row. *)
Theorem saved_recipe_is_listed
    (req_body : row) (members : list (string * json)) (owner : string)
    (query : gmap string qvalue) (saved : row) (w w1 : world) :
  req_body !! "recipe" = Some (JObj members) ->
  (list_to_map members : row) !! "user_id" = Some (JStr owner) ->
  owner <> "" ->
  run (save_recipe req_body) w
  = (Some (Response 200 (Success (Some [saved]))), w1) ->
  query !! "user_id" = Some (QStr owner) ->
  query !! "search" = None ->
  query !! "tag" = None ->
  store_healthy 1 w1 = true ->
  (run (api_recipes query) w1).1
  = Some (Response 200
            (RecipeList
               (List.map Some
                  (List.filter (Store.eq "user_id" (JStr owner)) (recipes w))
                ++ [Some saved])%list)).
Proof.
  intros Hrecipe Howner Hne Hsave Hq Hs Ht Hok.
  destruct (save_recipe_run req_body members w w1 _ Hrecipe Hsave)
    as (Hb & Hrows & _).
  injection Hb as Hsaved. rewrite <- Hsaved in Hrows.
  assert (Hmine : Store.eq "user_id" (JStr owner) saved = true).
  { apply store_eq_spec. rewrite Hsaved.
    rewrite with_id_lookup by discriminate. exact Howner. }
  unfold api_recipes. rewrite Hq, Hs, Ht. simpl qtruthy.
  assert (Hnonempty : negb (owner =? "")%string = true).
  { apply negb_true_iff, String.eqb_neq, Hne. }
  rewrite Hnonempty. cbn [negb]. simpl qtext.
  unfold store_healthy in Hok. crush_run.
  assert (Hfilter : forall l : list row,
    List.filter (fun r => Store.eq "user_id" (JStr owner) r && true && true) l
    = List.filter (Store.eq "user_id" (JStr owner)) l).
  { intros l. apply List.filter_ext. intros r. rewrite !andb_true_r. reflexivity. }
  destruct (store_faults w1) as [|[msg|] rest]; simpl in *;
    try discriminate Hok;
    rewrite Hfilter, Hrows, List.filter_app, List.map_app; simpl;
    rewrite Hmine; reflexivity.
Qed.

Lemma saved_recipe_is_listed_witness :
  (run (api_recipes {["user_id" := QStr "ann"]})
     (run (save_recipe {["recipe" := JObj toast_members]}) w_two_fans).2).1
  = Some (Response 200
            (RecipeList
               [Some r1_row;
                Some (<["id" := JNum "1"]> (list_to_map toast_members))])).
Proof.
  rewrite (saved_recipe_is_listed
             {["recipe" := JObj toast_members]} toast_members "ann"
             {["user_id" := QStr "ann"]}
             (<["id" := JNum "1"]> (list_to_map toast_members))
             w_two_fans
             (run (save_recipe {["recipe" := JObj toast_members]}) w_two_fans).2);
    try (vm_compute; reflexivity).
  discriminate.
Defined.


Lemma append_cons (c : ascii) (s t : string) :
  String c s +:+ t = String c (s +:+ t).
Proof. reflexivity. Qed.

















(** The tags reach the database as one array literal.  A blank after the
    comma is dropped, so [Dinner, Snack] finds the recipe tagged [Snack];
    a piece that is empty makes the literal malformed, and the answer is
    the error of the database. *)
Example tags_are_read_as_an_array_literal :
  (run (api_recipes (<["user_id" := QStr "ann"]>
                       {["tag" := QStr "Dinner, Snack"]})) w_two_recipes).1
  = (run (api_recipes (<["user_id" := QStr "ann"]>
                         {["tag" := QStr "Snack"]})) w_two_recipes).1
  /\ (run (api_recipes (<["user_id" := QStr "ann"]>
                          {["tag" := QStr "Snack,"]})) w_two_recipes).1
     = Some (Response 500
               (Error ("malformed array literal: "
                       +:+ Text.quoted "{Snack,}"))).
Proof. split; vm_compute; reflexivity. Qed.

(** X10.  When the store refuses the query of a listing (recipes or
    favorite recipes), the handler answers 500 and the error text it sends
    is the store's own message, word for word.  The one request that gets
    no answer instead is a recipes listing whose [tag] is an object
    ([tag[x]=..]): it has thrown before the query was sent. *)
Theorem listings_send_the_store_message
    (query : gmap string qvalue) (msg : string)
    (rest : list (option string)) (w : world) :
  qtruthy (query !! "user_id") = true ->
  store_faults w = Some msg :: rest ->
  (run (api_recipes query) w).1
  = match query !! "tag" with
    | Some (QObj _) => None
    | _ => Some (Response 500 (Error msg))
    end
  /\ (run (api_favorite_recipes query) w).1 = Some (Response 500 (Error msg)).
Proof.
  intros Hq Hfault. unfold api_recipes, api_favorite_recipes.
  rewrite Hq. split.
  - destruct (query !! "tag") as [[s|l|ms]|]; cbn [negb qtruthy tags_of];
      try destruct (negb (s =? "")%string);
      try destruct (overlaps _ _);
      crush_run; unfold db_refuse; rewrite ?Hfault; reflexivity.
  - simpl. crush_run. rewrite Hfault. reflexivity.
Qed.

Lemma listings_send_the_store_message_witness :
  (run (api_recipes {["user_id" := QStr "ann"]}) w_store_down).1
  = Some (Response 500 (Error "connection refused (db-7.internal)")).
Proof.
  destruct (listings_send_the_store_message {["user_id" := QStr "ann"]}
              "connection refused (db-7.internal)" [] w_store_down)
    as [H _]; [reflexivity | reflexivity |].
  exact H.
Defined.

Lemma update_write_id (req_body r : row) (id : json) :
  Store.eq "id" id (delete "id" req_body ∪ r) = Store.eq "id" id r.
Proof.
  unfold Store.eq. rewrite merged_row_lookup.
  rewrite decide_True by reflexivity. reflexivity.
Qed.

Lemma update_write_twice (req_body r : row) :
  delete "id" req_body ∪ (delete "id" req_body ∪ r) = delete "id" req_body ∪ r.
Proof. rewrite map_union_assoc. f_equal. apply map_union_idemp. Qed.

(** X11.  PATCH /update-recipe is idempotent.  With a store that answers,
    sending the same update twice leaves the recipes exactly as sending it
    once, and the second answer carries the same rows as the first. *)
Theorem update_recipe_twice_is_once (req_body : row) (w : world) :
  store_healthy 2 w = true ->
  let first := run (update_recipe req_body) w in
  let second := run (update_recipe req_body) first.2 in
  recipes second.2 = recipes first.2
  /\ favorites second.2 = favorites w
  /\ second.1 = first.1.
Proof.
  intros Hok. unfold update_recipe.
  destruct (truthy (req_body !! "id")); simpl; [|auto].
  set (id := or_null (req_body !! "id")).
  set (write := fun r : row =>
         if Store.eq "id" id r then delete "id" req_body ∪ r else r).
  assert (Hw : forall r, write (write r) = write r).
  { intros r. unfold write. destruct (Store.eq "id" id r) eqn:E.
    - rewrite update_write_id, E. apply update_write_twice.
    - rewrite E. reflexivity. }
  assert (Hp : forall r, Store.eq "id" id (write r) = Store.eq "id" id r).
  { intros r. unfold write. destruct (Store.eq "id" id r) eqn:E;
      [rewrite update_write_id|]; exact E. }
  assert (Hrows : forall l : list row,
            List.map write (List.map write l) = List.map write l).
  { intros l. rewrite List.map_map. apply List.map_ext, Hw. }
  assert (Hdata : forall l : list row,
            List.map write (List.filter (Store.eq "id" id) (List.map write l))
            = List.map write (List.filter (Store.eq "id" id) l)).
  { induction l as [|r l IH]; [reflexivity|]. simpl.
    rewrite Hp. destruct (Store.eq "id" id r); simpl; rewrite ?Hw, IH;
      reflexivity. }
  unfold store_healthy in Hok. crush_run. fold write.
  destruct (store_faults w) as [|[m1|] [|[m2|] fs]]; simpl in *;
    try discriminate Hok; fold write; rewrite Hrows, Hdata; auto.
Qed.

Lemma update_recipe_twice_is_once_witness :
  recipes (run (update_recipe retitle_r1)
             (run (update_recipe retitle_r1) w_two_fans).2).2
  = [ <["title" := JStr "French Toast"]> r1_row ].
Proof.
  destruct (update_recipe_twice_is_once retitle_r1 w_two_fans) as (H & _);
    [reflexivity|].
  rewrite H. vm_compute. reflexivity.
Defined.

(** X12.  An update for an id that no stored recipe has, with a store that
    answers, is reported as a success with no updated row, and nothing is
    written: the recipes and the favorites are as they were. *)
Theorem update_recipe_unknown_id (req_body : row) (id : json) (w : world) :
  req_body !! "id" = Some id ->
  truthy (Some id) = true ->
  List.filter (Store.eq "id" id) (recipes w) = [] ->
  store_healthy 1 w = true ->
  let after := run (update_recipe req_body) w in
  after.1 = Some (Response 200 (Success (Some [])))
  /\ recipes after.2 = recipes w
  /\ favorites after.2 = favorites w.
Proof.
  intros Hid Tid Hnone Hok. unfold update_recipe.
  rewrite Hid, Tid. simpl.
  assert (Hsame : forall l : list row,
    List.filter (Store.eq "id" id) l = [] ->
    List.map (fun r : row =>
                if Store.eq "id" id r then delete "id" req_body ∪ r else r) l
    = l).
  { induction l as [|r l IH]; [reflexivity|]. simpl.
    destruct (Store.eq "id" id r); [discriminate|].
    intros H. rewrite (IH H). reflexivity. }
  unfold store_healthy in Hok. crush_run.
  destruct (store_faults w) as [|[m1|] fs]; simpl in *;
    try discriminate Hok; rewrite Hnone, (Hsame _ Hnone); auto.
Qed.

Lemma update_recipe_unknown_id_witness :
  (run (update_recipe (<["id" := JStr "nope"]> {["title" := JStr "x"]}))
     w_two_fans).1
  = Some (Response 200 (Success (Some []))).
Proof.
  apply (update_recipe_unknown_id
           (<["id" := JStr "nope"]> {["title" := JStr "x"]}) (JStr "nope")
           w_two_fans);
    vm_compute; reflexivity.
Defined.

(** X13.  POST /delete-recipe, when it answers 200, answers with exactly
    the recipe rows that had the id, has removed those rows and no other
    (the rest stay in store order), and a second delete of the same id on a
    store that answers reports an empty result and changes nothing. *)
Theorem delete_recipe_returns_what_it_removed
    (req_body : row) (id : json) (w w' : world) (b : reply) :
  req_body !! "id" = Some id ->
  run (delete_recipe req_body) w = (Some (Response 200 b), w') ->
  b = Success (Some (List.filter (Store.eq "id" id) (recipes w)))
  /\ recipes w'
     = List.filter (fun r => negb (Store.eq "id" id r)) (recipes w)
  /\ (store_healthy 2 w' = true ->
      let again := run (delete_recipe req_body) w' in
      again.1 = Some (Response 200 (Success (Some [])))
      /\ recipes again.2 = recipes w'
      /\ favorites again.2 = favorites w').
Proof.
  intros Hid. unfold delete_recipe. rewrite Hid. cbn [or_null].
  destruct (truthy (Some id)); cbn [negb];
    [|crush_run; intros H; discriminate H].
  assert (Hagain : forall v : world,
    List.filter (Store.eq "id" id) (recipes v) = [] ->
    List.filter (Store.eq "recipe_id" id) (favorites v) = [] ->
    store_healthy 2 v = true ->
    let again :=
      run (try_catch
             (favResult <- db_delete Favorites (Store.eq "recipe_id" id) ;;
              match favResult with
              | inl _ =>
                  result <- db_delete Recipes (Store.eq "id" id) ;;
                  match result with
                  | inl data => send 200 (Success (Some data))
                  | inr e => throw (StoreError e)
                  end
              | inr favError => throw (StoreError favError)
              end)
             (fun _ => send 500 (Error "Failed to delete recipe."))) v in
    again.1 = Some (Response 200 (Success (Some [])))
    /\ recipes again.2 = recipes v /\ favorites again.2 = favorites v).
  { intros v Hr Hf Hok. unfold store_healthy in Hok. crush_run.
    pose proof (filter_negb_id _ _ Hr) as Hr'.
    pose proof (filter_negb_id _ _ Hf) as Hf'.
    destruct (store_faults v) as [|[m1|] [|[m2|] fs]]; simpl in *;
      try discriminate Hok; rewrite Hr, Hr', Hf'; auto. }
  intros Hrun.
  assert (Hshape :
    b = Success (Some (List.filter (Store.eq "id" id) (recipes w)))
    /\ recipes w'
       = List.filter (fun r => negb (Store.eq "id" id r)) (recipes w)
    /\ favorites w'
       = List.filter (fun r => negb (Store.eq "recipe_id" id r))
           (favorites w)).
  { revert Hrun. crush_run.
    destruct (store_faults w) as [|[m1|] [|[m2|] fs]]; simpl;
      intros H; try discriminate H; injection H as <- <-; simpl; auto. }
  destruct Hshape as (Hb & Hrec & Hfav).
  split; [exact Hb|]. split; [exact Hrec|].
  intros Hok. apply Hagain; [| |exact Hok].
  - rewrite Hrec. apply filter_negb_filter.
  - rewrite Hfav. apply filter_negb_filter.
Qed.

Lemma delete_recipe_returns_what_it_removed_witness :
  recipes (run (delete_recipe {["id" := JStr "r1"]}) w_two_fans).2 = []
  /\ (run (delete_recipe {["id" := JStr "r1"]})
        (run (delete_recipe {["id" := JStr "r1"]}) w_two_fans).2).1
     = Some (Response 200 (Success (Some []))).
Proof.
  destruct (delete_recipe_returns_what_it_removed
              {["id" := JStr "r1"]} (JStr "r1") w_two_fans
              (run (delete_recipe {["id" := JStr "r1"]}) w_two_fans).2
              (Success (Some [r1_row])))
    as (_ & Hrec & Hagain);
    [vm_compute; reflexivity | vm_compute; reflexivity |].
  split.
  - rewrite Hrec. vm_compute. reflexivity.
  - apply Hagain. vm_compute. reflexivity.
Defined.

(** X14.  delete-recipe is not atomic.  When the store accepts the first
    call and refuses the second, the handler answers 500 while the relation
    rows that refer to the recipe are already gone and the recipe itself is
    still stored. *)
Theorem delete_recipe_can_stop_halfway
    (req_body : row) (id : json) (msg : string)
    (rest : list (option string)) (w : world) :
  req_body !! "id" = Some id ->
  truthy (Some id) = true ->
  store_faults w = None :: Some msg :: rest ->
  let after := run (delete_recipe req_body) w in
  after.1 = Some (Response 500 (Error "Failed to delete recipe."))
  /\ recipes after.2 = recipes w
  /\ favorites after.2
     = List.filter (fun r => negb (Store.eq "recipe_id" id r)) (favorites w).
Proof.
  intros Hid Tid Hfaults. unfold delete_recipe. rewrite Hid, Tid. simpl.
  crush_run. rewrite Hfaults. simpl. auto.
Qed.

Lemma delete_recipe_can_stop_halfway_witness :
  recipes (run (delete_recipe {["id" := JStr "r1"]}) w_flaky).2 = [r1_row]
  /\ favorites (run (delete_recipe {["id" := JStr "r1"]}) w_flaky).2
     = [link "cy" "r2"].
Proof.
  destruct (delete_recipe_can_stop_halfway {["id" := JStr "r1"]} (JStr "r1")
              "deadlock detected" [] w_flaky)
    as (_ & Hrec & Hfav); [vm_compute; reflexivity | reflexivity | reflexivity |].
  split; [exact Hrec | rewrite Hfav; vm_compute; reflexivity].
Defined.

(** X15.  Apart from delete-recipe, a request changes the recipes or the
    favorites only when it is answered 200: whenever a request other than a
    delete gets another answer, or none, both relations and the identifier
    counter are as they were. *)
Theorem no_change_without_success (rq : request) (w : world) :
  (forall b, rq <> DeleteRecipe b) ->
  (forall b, (run (handler rq) w).1 <> Some (Response 200 b)) ->
  recipes (serve rq w) = recipes w
  /\ favorites (serve rq w) = favorites w
  /\ next_id (serve rq w) = next_id w.
Proof.
  intros Hnodel Hfail.
  destruct (is_mutation rq) eqn:Hmut.
  - destruct rq as [| |b|b| |b| | |b| | |b]; try discriminate Hmut;
      unfold serve in *; simpl handler in *.
    + (* favorite *)
      revert Hfail. unfold favorite_recipe.
      destruct (negb (truthy (b !! "user_id")) || negb (truthy (b !! "recipe_id")));
        [auto|].
      crush_run. rewrite lookup_insert_ne, lookup_singleton_ne by done.
      destruct (store_faults w) as [|[msg|] rest]; simpl; auto;
        intros Hfail; exfalso; eapply Hfail; reflexivity.
    + (* unfavorite *)
      revert Hfail. unfold unfavorite_recipe.
      destruct (negb (truthy (b !! "user_id")) || negb (truthy (b !! "recipe_id")));
        [auto|].
      crush_run.
      destruct (store_faults w) as [|[msg|] rest]; simpl; auto;
        intros Hfail; exfalso; eapply Hfail; reflexivity.
    + (* save *)
      revert Hfail. unfold save_recipe.
      destruct (negb (truthy (b !! "recipe")) || _); [auto|].
      crush_run.
      destruct (store_faults w) as [|[msg|] rest]; simpl; auto;
        destruct (_ !! "id"); simpl;
        intros Hfail; exfalso; eapply Hfail; reflexivity.
    + (* update *)
      revert Hfail. unfold update_recipe.
      destruct (negb (truthy (b !! "id"))); [auto|].
      crush_run.
      destruct (store_faults w) as [|[msg|] rest]; simpl; auto;
        intros Hfail; exfalso; eapply Hfail; reflexivity.
    + (* delete *)
      exfalso. eapply Hnodel. reflexivity.
  - unfold serve.
    pose proof (keeps_run relations (handler rq) w
                  (readers_keep_relations rq Hmut)) as H.
    unfold relations in H. injection H as H1 H2 H3. auto.
Qed.

Lemma no_change_without_success_witness :
  favorites (serve (FavoriteRecipe (link "bob" "r1")) w_refusing)
  = favorites w_refusing.
Proof.
  apply (no_change_without_success (FavoriteRecipe (link "bob" "r1"))
           w_refusing).
  - intros b. discriminate.
  - intros b. vm_compute. discriminate.
Defined.

(* ===================================================================== *)
(** ** The AI handlers: what is asked, and what each outcome answers      *)
(* ===================================================================== *)

(** X16.  POST /ask-ai-chef, given a question and a recipe whose
    ingredients and instructions are arrays, makes exactly one call to the
    model, built from the recipe's title, tags, ingredients and steps and
    the question; it answers 200 with the trimmed text when the model
    returns one, and 500 in every other case (the call threw, the response
    had no choice, or its content was null). *)
Theorem ask_ai_chef_asks_once_and_answers
    (req_body : row) (question recipe : json) (ings steps : list json)
    (w : world) :
  req_body !! "question" = Some question ->
  truthy (Some question) = true ->
  req_body !! "recipe" = Some recipe ->
  truthy (Some recipe) = true ->
  Json.get "ingredients" recipe = Some (JArr ings) ->
  Json.get "instructions" recipe = Some (JArr steps) ->
  let after := run (ask_ai_chef req_body) w in
  model_calls after.2
  = (model_calls w
     ++ [AskChef (display_opt (Json.get "title" recipe))
           (display_opt (Json.get "tag" recipe))
           (List.map display ings) (List.map display steps) question])%list
  /\ after.1
     = Some match completions w with
            | ModelReturns (Choice (Some text)) :: _ =>
                Response 200 (Answer (Text.trim text))
            | _ => Response 500 (Error "Failed to fetch response from AI.")
            end.
Proof.
  intros Hq Tq Hr Tr Hings Hsteps. unfold ask_ai_chef.
  rewrite Hq, Hr, Tq, Tr. cbn [negb orb or_null].
  unfold chef_prompt. rewrite Hings, Hsteps.
  unfold run, bind, try_catch, ret, call_model.
  destruct (completions w) as [|[|[|[text|]]] rest]; simpl; auto.
Qed.

Lemma ask_ai_chef_asks_once_and_answers_witness :
  model_calls (run (ask_ai_chef ask_about_toast) w_chef).2
  = [AskChef "Toast" "Breakfast,Snack" ["bread"; "2"] ["Toast the bread."]
       (JStr "Can I use rye?")]
  /\ (run (ask_ai_chef ask_about_toast) w_chef).1
     = Some (Response 200 (Answer "Yes, rye works.")).
Proof.
  destruct (ask_ai_chef_asks_once_and_answers ask_about_toast
              (JStr "Can I use rye?") toast_recipe
              [JStr "bread"; JNum "2"] [JStr "Toast the bread."] w_chef)
    as (Hcalls & Hres); try (vm_compute; reflexivity).
  split; [rewrite Hcalls | rewrite Hres]; vm_compute; reflexivity.
Defined.

(** X17.  POST /ask-ai-chef builds its prompt before its [try]: given a
    question and a recipe whose ingredients or instructions are not an
    array, the handler throws there, so no response is ever sent, no call
    is made to the model and nothing changes. *)
Theorem ask_ai_chef_without_lists_never_answers
    (req_body : row) (question recipe : json) (w : world) :
  req_body !! "question" = Some question ->
  truthy (Some question) = true ->
  req_body !! "recipe" = Some recipe ->
  truthy (Some recipe) = true ->
  (forall l, Json.get "ingredients" recipe <> Some (JArr l))
  \/ (forall l, Json.get "instructions" recipe <> Some (JArr l)) ->
  run (ask_ai_chef req_body) w = (None, w).
Proof.
  intros Hq Tq Hr Tr Hbad. unfold ask_ai_chef.
  rewrite Hq, Hr, Tq, Tr. cbn [negb orb or_null].
  unfold chef_prompt, run, bind, throw.
  destruct (Json.get "ingredients" recipe) as [[| | | |ings|]|];
    try reflexivity;
    destruct (Json.get "instructions" recipe) as [[| | | |steps|]|];
    try reflexivity.
  destruct Hbad as [H|H]; [destruct (H ings) | destruct (H steps)];
    reflexivity.
Qed.

Lemma ask_ai_chef_without_lists_never_answers_witness :
  run (ask_ai_chef (<["question" := JStr "Can I use rye?"]>
                      {["recipe" := JObj [("title", JStr "Toast")]]})) w_chef
  = (None, w_chef).
Proof.
  apply (ask_ai_chef_without_lists_never_answers _ (JStr "Can I use rye?")
           (JObj [("title", JStr "Toast")]));
    try (vm_compute; reflexivity).
  left. intros l. vm_compute. discriminate.
Defined.

Lemma skip_word_stops (kind rest : string) :
  all_word kind = true ->
  Text.skip_word (kind +:+ String ";" rest) = String ";" rest.
Proof.
  induction kind as [|c kind IH]; simpl; [reflexivity|].
  intros H. apply andb_prop in H as [Hc Hk]. rewrite Hc. apply IH, Hk.
Qed.

Lemma drop_prefix_app (p s : string) :
  Text.drop_prefix p (p +:+ s) = Some s.
Proof.
  induction p as [|c p IH]; simpl; [reflexivity|].
  rewrite Ascii.eqb_refl. exact IH.
Qed.

Lemma drop_prefix_startsWith (p s : string) :
  Text.startsWith p s = false -> Text.drop_prefix p s = None.
Proof.
  revert s. induction p as [|a p IH]; intros s; simpl; [discriminate|].
  destruct s as [|b s]; [reflexivity|].
  destruct (Ascii.eqb a b); simpl; [apply IH | reflexivity].
Qed.

Lemma strip_data_url_cuts (kind payload : string) :
  kind <> "" ->
  all_word kind = true ->
  Text.strip_data_url ("data:image/" +:+ kind +:+ ";base64," +:+ payload)
  = payload.
Proof.
  intros Hne Hword. unfold Text.strip_data_url.
  rewrite drop_prefix_app.
  destruct kind as [|c kind]; [congruence|].
  simpl in Hword. apply andb_prop in Hword as [Hc Hk].
  change (String c kind +:+ ";base64," +:+ payload)
    with (String c (kind +:+ String ";" ("base64," +:+ payload))).
  cbv beta iota. rewrite Hc, (skip_word_stops kind _ Hk).
  reflexivity.
Qed.

(** X18.  The data-URL header is removed, once, and only a header.  A text
    of the form [data:image/KIND;base64,PAYLOAD], with KIND one or more
    letters, digits or underscores, is cut down to PAYLOAD, whatever
    PAYLOAD is; a text that does not begin with [data:image/] is returned
    as it is. *)
Theorem strip_data_url_removes_the_header
    (kind payload other : string) :
  kind <> "" ->
  all_word kind = true ->
  Text.startsWith "data:image/" other = false ->
  Text.strip_data_url ("data:image/" +:+ kind +:+ ";base64," +:+ payload)
  = payload
  /\ Text.strip_data_url other = other.
Proof.
  intros Hne Hword Hother. split.
  - apply strip_data_url_cuts; assumption.
  - unfold Text.strip_data_url.
    rewrite (drop_prefix_startsWith _ _ Hother). reflexivity.
Qed.

Lemma strip_data_url_removes_the_header_witness :
  Text.strip_data_url
    ("data:image/" +:+ "png" +:+ ";base64," +:+ "data:image/jpeg;base64,QUJD")
  = "data:image/jpeg;base64,QUJD"
  /\ Text.strip_data_url "QUJD" = "QUJD".
Proof.
  apply (strip_data_url_removes_the_header "png"
           "data:image/jpeg;base64,QUJD" "QUJD");
    [discriminate | reflexivity | reflexivity].
Defined.

(** X19.  The inline version of POST /analyze-recipe-image, given an image
    that is a data URL, sends the model the payload without its header, in
    one call.  It answers 200 with the parsed value when the content is
    JSON, 200 with [null] as the recipe when the content is [null], 500 with
    the parse message when the content is a text that is not JSON, and 500
    with the analysis message when the call threw or had no choice. *)
Theorem analyze_inline_sends_the_payload
    (req_body : row) (kind payload : string) (w : world) :
  req_body !! "image"
  = Some (JStr ("data:image/" +:+ kind +:+ ";base64," +:+ payload)) ->
  kind <> "" ->
  all_word kind = true ->
  let after := run (analyze_recipe_image_inline req_body) w in
  model_calls after.2 = (model_calls w ++ [VisionInline payload])%list
  /\ after.1
     = Some match completions w with
            | ModelReturns (Choice None) :: _ =>
                Response 200 (ExtractedRecipe JNull)
            | ModelReturns (Choice (Some text)) :: _ =>
                match JSON_parse text with
                | Some v => Response 200 (ExtractedRecipe v)
                | None =>
                    Response 500
                      (Error "Failed to parse recipe data from image.")
                end
            | _ => Response 500 (Error "Failed to analyze recipe image.")
            end.
Proof.
  intros Himage Hne Hword. unfold analyze_recipe_image_inline.
  rewrite Himage. cbn [or_null].
  change (truthy (Some (JStr ("data:image/" +:+ kind +:+ ";base64," +:+ payload))))
    with true.
  cbn [negb]. rewrite (strip_data_url_cuts kind payload Hne Hword).
  unfold run, bind, try_catch, ret, call_model.
  destruct (completions w) as [|[|[|[text|]]] rest]; simpl; auto.
  destruct (JSON_parse text); simpl; auto.
Qed.

Lemma analyze_inline_sends_the_payload_witness :
  model_calls (run (analyze_recipe_image_inline inline_png) w_null_content).2
  = [VisionInline "QUJD"]
  /\ (run (analyze_recipe_image_inline inline_png) w_null_content).1
     = Some (Response 200 (ExtractedRecipe JNull)).
Proof.
  apply (analyze_inline_sends_the_payload inline_png "png" "QUJD"
           w_null_content);
    [reflexivity | discriminate | reflexivity].
Defined.

Lemma from_first_split (c : ascii) (s t : string) :
  Text.from_first c s = Some t ->
  exists before rest,
    s = before +:+ t /\ t = String c rest /\ occurs c before = false.
Proof.
  induction s as [|a s IH]; simpl; [discriminate|].
  destruct (Ascii.eqb a c) eqn:E.
  - intros [= <-]. apply Ascii.eqb_eq in E. subst a.
    exists "", s. auto.
  - intros H. destruct (IH H) as (before & rest & -> & -> & Hb).
    exists (String a before), rest. simpl. rewrite E, Hb. auto.
Qed.

Lemma upto_last_split (c : ascii) (s p : string) :
  Text.upto_last c s = Some p ->
  exists inner after,
    s = p +:+ after /\ p = inner +:+ String c "" /\ occurs c after = false.
Proof.
  revert p. induction s as [|a s IH]; intros p; simpl; [discriminate|].
  destruct (Text.upto_last c s) as [q|] eqn:Eq.
  - intros [= <-]. destruct (IH q eq_refl) as (inner & after & -> & -> & Ha).
    exists (String a inner), after. auto.
  - destruct (Ascii.eqb a c) eqn:E; [|discriminate].
    intros [= <-]. apply Ascii.eqb_eq in E. subst a.
    exists "", s. repeat split.
    clear IH. induction s as [|b s IHs]; [reflexivity|].
    simpl in Eq. destruct (Text.upto_last c s); [discriminate|].
    destruct (Ascii.eqb b c) eqn:Eb; [discriminate|].
    simpl. rewrite Eb. apply IHs. reflexivity.
Qed.

(** X20.  What [/\{[\s\S]*\}/] matches.  When the match succeeds, the text
    is some prose without an opening brace, then the match, then some prose
    without a closing brace, and the match runs from an opening brace to a
    closing brace: the first of the one and the last of the other.  Without
    an opening brace there is no match. *)
Theorem match_braces_is_first_to_last (text found : string) :
  Text.match_braces text = Some found ->
  exists before inner after,
    text = before +:+ found +:+ after
    /\ found = String "{" (inner +:+ String "}" "")
    /\ occurs "{" before = false
    /\ occurs "}" after = false.
Proof.
  unfold Text.match_braces.
  destruct (Text.from_first "{" text) as [[|open r]|] eqn:Ef; try discriminate.
  destruct (from_first_split _ _ _ Ef) as (before & rest & -> & Hopen & Hb).
  injection Hopen as -> ->.
  destruct (Text.upto_last "}" rest) as [body|] eqn:El; [|discriminate].
  destruct (upto_last_split _ _ _ El) as (inner & after & -> & -> & Ha).
  intros [= <-]. exists before, inner, after. auto.
Qed.

Lemma match_braces_is_first_to_last_witness :
  exists before inner after,
    "Sure: {a} and {b}. Done" = before +:+ "{a} and {b}" +:+ after
    /\ "{a} and {b}" = String "{" (inner +:+ String "}" "")
    /\ occurs "{" before = false
    /\ occurs "}" after = false.
Proof.
  apply (match_braces_is_first_to_last "Sure: {a} and {b}. Done" "{a} and {b}").
  reflexivity.
Defined.

(** X21.  What a 200 from the upload version of image extraction stands
    for: the file was on disk and has been removed (and only that file),
    exactly one call was made, with the content of the file, and the value
    answered is the JSON found between the braces of the model's text. *)
Theorem analyze_upload_success_means
    (path : string) (v : json) (w w' : world) :
  run (analyze_recipe_image_upload (Some path)) w
  = (Some (Response 200 (Extracted v)), w') ->
  exists image r rest,
    uploads w !! path = Some image
    /\ uploads w' = delete path (uploads w)
    /\ model_calls w' = (model_calls w ++ [VisionUpload image])%list
    /\ completions w = ModelReturns r :: rest
    /\ extracted_from r = Some v.
Proof.
  unfold analyze_recipe_image_upload, run, try_catch, bind, readFileSync,
    call_model, unlinkSync, message_content, send, ret, throw.
  destruct (uploads w !! path) as [img|] eqn:Hfile; simpl; [|discriminate].
  destruct (completions w) as [|[|[|[text|]]] rest]; simpl; try discriminate.
  destruct (Text.match_braces text) as [found|] eqn:Hfound; simpl;
    [|discriminate].
  destruct (JSON_parse found) as [x|] eqn:Hx; simpl; [|discriminate].
  rewrite Hfile. simpl. intros H. injection H as <- <-.
  exists img, (Choice (Some text)), rest. simpl.
  rewrite Hfound, Hx. auto.
Qed.

Lemma analyze_upload_success_means_witness :
  exists image r rest,
    uploads w_photo !! "uploads/7f3a" = Some image
    /\ uploads (run (analyze_recipe_image_upload (Some "uploads/7f3a"))
                  w_photo).2
       = delete "uploads/7f3a" (uploads w_photo)
    /\ model_calls (run (analyze_recipe_image_upload (Some "uploads/7f3a"))
                      w_photo).2
       = (model_calls w_photo ++ [VisionUpload image])%list
    /\ completions w_photo = ModelReturns r :: rest
    /\ extracted_from r = Some (JObj []).
Proof.
  apply (analyze_upload_success_means "uploads/7f3a" (JObj []) w_photo).
  vm_compute. reflexivity.
Defined.

(* ===================================================================== *)
(** ** The favorites listing                                              *)
(* ===================================================================== *)




Lemma title_matches_pure (search : option qvalue) (x : option row) (w : world) :
  (exists b, title_matches search x w = (Done b, w))
  \/ title_matches search x w = (Thrown TypeError, w).
Proof.
  unfold title_matches, ret, throw.
  destruct x as [r|]; [|auto].
  destruct (r !! "title") as [[| | |t| |]|]; auto;
    destruct search as [[s|l|ms]|]; eauto.
Qed.

Lemma filterM_title_throws (search : option qvalue) (l : list (option row))
    (x : option row) (w : world) :
  In x l ->
  (forall v, title_matches search x v = (Thrown TypeError, v)) ->
  filterM (title_matches search) l w = (Thrown TypeError, w).
Proof.
  intros Hin Hx. induction l as [|y l IH]; [destruct Hin|].
  simpl. unfold bind.
  destruct (title_matches_pure search y w) as [[b Hy]|Hy]; rewrite Hy;
    [|reflexivity].
  destruct Hin as [->|Hin]; [rewrite Hx in Hy; discriminate Hy|].
  rewrite (IH Hin). reflexivity.
Qed.

(** X23.  The favorites listing has no [catch].  Under a search term, when
    one relation row of the asking user refers to a recipe that is gone, or
    to one whose title is not a text, the handler throws while filtering:
    no response is sent, for the whole listing. *)
Theorem favorites_search_breaks_on_a_dangling_row
    (query : gmap string qvalue) (fav : row) (w : world) :
  qtruthy (query !! "user_id") = true ->
  qtruthy (query !! "search") = true ->
  store_healthy 1 w = true ->
  In fav (favorites w) ->
  fav !! "user_id" = Some (JStr (qtext (query !! "user_id"))) ->
  match embedded_recipe w fav with
  | Some r => forall t, r !! "title" <> Some (JStr t)
  | None => True
  end ->
  (run (api_favorite_recipes query) w).1 = None.
Proof.
  intros Hu Hs Hok Hin Hmine Hbad. unfold api_favorite_recipes.
  rewrite Hu, Hs. cbn [negb]. unfold run, bind, store_call.
  assert (Hthrows : forall v,
    title_matches (query !! "search") (embedded_recipe w fav) v
    = (Thrown TypeError, v)).
  { intros v. unfold title_matches, throw.
    destruct (embedded_recipe w fav) as [r|]; [|reflexivity].
    destruct (r !! "title") as [[| | |t| |]|] eqn:E; try reflexivity.
    destruct (Hbad t). reflexivity. }
  assert (Hlisted : In (embedded_recipe w fav)
    (List.map (embedded_recipe w)
       (List.filter (Store.eq "user_id" (JStr (qtext (query !! "user_id"))))
          (favorites w)))).
  { apply List.in_map, List.filter_In. split; [exact Hin|].
    apply store_eq_spec, Hmine. }
  unfold store_healthy in Hok.
  destruct (store_faults w) as [|[msg|] rest]; simpl in *;
    try discriminate Hok;
    match goal with
    | |- context [filterM ?p ?l ?v] =>
        change l with (List.map (embedded_recipe w)
          (List.filter (Store.eq "user_id" (JStr (qtext (query !! "user_id"))))
             (favorites w)));
        rewrite (filterM_title_throws _ _ _ v Hlisted Hthrows)
    end; reflexivity.
Qed.

Lemma favorites_search_breaks_on_a_dangling_row_witness :
  (run (api_favorite_recipes ann_searches_toast) w_dangling).1 = None.
Proof.
  apply (favorites_search_breaks_on_a_dangling_row ann_searches_toast
           (<["id" := JNum "1"]> (link "ann" "ghost")) w_dangling).
  - reflexivity.
  - reflexivity.
  - reflexivity.
  - vm_compute. left. reflexivity.
  - vm_compute. reflexivity.
  - vm_compute. exact I.
Defined.

(* ===================================================================== *)
(** ** The image store helper: where an upload goes                       *)
(* ===================================================================== *)












Lemma all_word_app (s t : string) :
  all_word (s +:+ t) = all_word s && all_word t.
Proof.
  induction s as [|c s IH]; [reflexivity|].
  rewrite append_cons. cbn [all_word]. rewrite IH, andb_assoc. reflexivity.
Qed.




(* ===================================================================== *)
(** ** Status codes, and requests that get no answer                      *)
(* ===================================================================== *)

Section answer_rules.
Context (codes : list nat).

Lemma within_send (c : nat) (b : reply) :
  In c codes -> answers_within codes status_of (send c b).
Proof. intros Hc w a w' [= <- _]. exact Hc. Qed.

Lemma within_throw (e : exn) : answers_within codes status_of (throw e).
Proof. intros w a w' H. discriminate H. Qed.

Lemma within_bind {B} (m : M B) (k : B -> M response) :
  (forall b, answers_within codes status_of (k b)) ->
  answers_within codes status_of (bind m k).
Proof.
  intros Hk w a w'. unfold bind. destruct (m w) as [[b|e] w1].
  - apply Hk.
  - discriminate.
Qed.

Lemma within_try_catch (m : M response) (h : exn -> M response) :
  answers_within codes status_of m ->
  (forall e, answers_within codes status_of (h e)) ->
  answers_within codes status_of (try_catch m h).
Proof.
  intros Hm Hh w a w'. unfold try_catch. specialize (Hm w).
  destruct (m w) as [[b|e] w1].
  - intros [= <- <-]. apply (Hm b w1). reflexivity.
  - apply Hh.
Qed.
End answer_rules.

Ltac within :=
  repeat first
    [ progress intros
    | apply within_send; simpl; tauto
    | apply within_throw
    | apply within_try_catch
    | apply within_bind
    | match goal with
      | |- answers_within _ _ (if ?c then _ else _) => destruct c
      | |- answers_within _ _ (match ?x with _ => _ end) => destruct x
      end ].

(** X25.  The status codes.  A handler answers 400 exactly when the input
    it asks for first is absent or falsy (an empty text, [0], [false] and
    [null] count as absent), and then nothing at all has happened: no store
    call, no model call, no change.  In every other case the answer, when
    there is one, is 200 or 500.  The upload version of image extraction
    never answers 400. *)
Theorem bad_request_exactly_on_missing_input (rq : request) (w : world) :
  if missing_input rq
  then exists msg, run (handler rq) w = (Some (Response 400 (Error msg)), w)
  else forall r, (run (handler rq) w).1 = Some r ->
                 status r = 200 \/ status r = 500.
Proof.
  destruct (missing_input rq) eqn:Hmiss.
  - destruct rq; simpl in Hmiss; try discriminate Hmiss; simpl handler;
      unfold ask_ai_chef, api_recipes, favorite_recipe, unfavorite_recipe,
        favorite_recipe_check, save_recipe, inspire_recipes,
        api_favorite_recipes, update_recipe, analyze_recipe_image_inline,
        delete_recipe;
      rewrite Hmiss; eexists; reflexivity.
  - assert (H : answers_within [200; 500] status_of (handler rq)).
    { destruct rq; simpl in Hmiss; simpl handler;
        unfold ask_ai_chef, api_recipes, favorite_recipe, unfavorite_recipe,
          favorite_recipe_check, save_recipe, inspire_recipes,
          api_favorite_recipes, update_recipe, analyze_recipe_image_upload,
          analyze_recipe_image_inline, delete_recipe;
        rewrite ?Hmiss; within. }
    intros r Hr. unfold run in Hr.
    destruct (handler rq w) as [[a|e] w1] eqn:E; [|discriminate Hr].
    injection Hr as ->. specialize (H w r w1 E). simpl in H.
    destruct H as [H|[H|[]]]; auto.
Qed.

Section return_rules.
Lemma returns_send (c : nat) (b : reply) : always_returns (send c b).
Proof. intros w. unfold send, ret. eauto. Qed.

Lemma returns_bind {A B} (m : M A) (k : A -> M B) :
  always_returns m -> (forall a, always_returns (k a)) ->
  always_returns (bind m k).
Proof.
  intros Hm Hk w. unfold bind. destruct (Hm w) as (a & w1 & ->). apply Hk.
Qed.

Lemma returns_try_catch {A} (m : M A) (h : exn -> M A) :
  (forall e, always_returns (h e)) -> always_returns (try_catch m h).
Proof.
  intros Hh w. unfold try_catch. destruct (m w) as [[a|e] w1]; [eauto|].
  apply Hh.
Qed.

Lemma returns_store_call {A} (f : world -> A * world) :
  always_returns (store_call f).
Proof.
  intros w. unfold store_call.
  destruct (store_faults w) as [|[msg|] rest]; [| |];
    try destruct (f w); try destruct (f (set_store_faults rest w)); eauto.
Qed.
End return_rules.

Ltac returns :=
  repeat first
    [ progress intros
    | apply returns_send
    | apply returns_try_catch
    | apply returns_bind
    | apply returns_store_call
    | match goal with
      | |- always_returns (if ?c then _ else _) => destruct c
      | |- always_returns (match ?x with _ => _ end) => destruct x
      end ].

(** X26.  The handlers that do all their work inside a [try] with a
    [catch] that answers (favorite, unfavorite, favorite check, save,
    update, delete and the upload version of image extraction) always send
    a response, whatever the request, the store and the model do. *)
Theorem guarded_handlers_always_answer (rq : request) (w : world) :
  guarded rq = true ->
  exists r, (run (handler rq) w).1 = Some r.
Proof.
  intros Hrq.
  assert (H : always_returns (handler rq)).
  { destruct rq; try discriminate Hrq; simpl handler;
      unfold favorite_recipe, unfavorite_recipe, favorite_recipe_check,
        save_recipe, update_recipe, analyze_recipe_image_upload,
        delete_recipe, db_select;
      returns. }
  unfold run. destruct (H w) as (a & w1 & ->). eauto.
Qed.

Lemma guarded_handlers_always_answer_witness :
  exists r,
    (run (handler (FavoriteRecipeCheck (link "bob" "r1"))) w_store_down).1
    = Some r.
Proof.
  apply (guarded_handlers_always_answer
           (FavoriteRecipeCheck (link "bob" "r1")) w_store_down).
  reflexivity.
Defined.

(** X28.  The recipes listing splits its tags before any [try]: when [tag]
    is an object ([tag[x]=..], which has no [split]) the handler throws
    there.  No response is sent, the store is not called, and nothing
    changes. *)
Theorem api_recipes_object_tag_never_answers
    (query : gmap string qvalue) (members : list (string * qvalue))
    (w : world) :
  qtruthy (query !! "user_id") = true ->
  query !! "tag" = Some (QObj members) ->
  run (api_recipes query) w = (None, w).
Proof.
  intros Hu Ht. unfold api_recipes. rewrite Hu, Ht. reflexivity.
Qed.

Lemma api_recipes_object_tag_never_answers_witness :
  run (api_recipes (<["user_id" := QStr "ann"]>
                      {["tag" := QObj [("x", QStr "1")]]})) w_store_down
  = (None, w_store_down).
Proof.
  apply (api_recipes_object_tag_never_answers _ [("x", QStr "1")]);
    reflexivity.
Defined.

(* ===================================================================== *)
(** ** The upload directory                                               *)
(* ===================================================================== *)



